(** * GIF background remover: the classifier and the frame pipeline

    A shallow embedding of [src/gif_bg_remover.py]: the colour classifier
    [GifBackgroundRemover.color_within_fuzz] and the frame processing of
    [GifBackgroundRemover.process_gif], with the properties the
    specification states about them.  The image codec (decoding, cropping,
    palette quantisation, encoding) is Pillow's and is not part of the
    program: cropping is modelled after its documentation, the quantiser is
    a parameter, and the encoder's handling of frame durations is modelled
    after its behaviour. *)

From Stdlib Require Import ZArith List Lia Bool.
From Stdlib Require Import Floats Uint63.
From Stdlib Require Import Reals Lra.
From Stdlib Require String.
Import String.StringSyntax.
Import ListNotations.

Delimit Scope string_scope with string.

Local Open Scope Z_scope.

(** * Part I: the program *)

(** ** Integer ranges *)

(** [zrange lo n] is Python's [range(lo, lo + n)]. *)
Fixpoint zrange (lo : Z) (n : nat) : list Z :=
  match n with
  | O => []
  | S k => lo :: zrange (lo + 1) k
  end.

(** [enumerate(l)] *)
Definition enumerate {A : Type} (l : list A) : list (Z * A) :=
  combine (zrange 0 (length l)) l.

(** ** Python floats

    A Python [float] is an IEEE-754 binary64 number, which is what Rocq's
    primitive [float] is. *)
Module PyFloat.

(** [float(n)] for a Python [int] [n]: exact for [|n| < 2^53] and correctly
    rounded for [|n| < 2^63].  The classifier converts a slider value, the
    constants 100 and 255 and a sum of three squares of channel
    differences. *)
Definition of_int (n : Z) : float :=
  if n <? 0 then PrimFloat.opp (PrimFloat.of_uint63 (Uint63.of_Z (- n)))
  else PrimFloat.of_uint63 (Uint63.of_Z n).

(** [a / b] on two Python [int]s: true division, correctly rounded. *)
Definition truediv (a b : Z) : float := (of_int a / of_int b)%float.

(** The literal [0.5]. *)
Definition half : float := 0.5%float.

End PyFloat.

(** ** Exceptions

    The two exceptions the modelled statements can raise; [process_gif]
    catches every exception at its outer [try]. *)
Inductive exn : Type :=
| ZeroDivisionError
| IndexError.

Inductive result (A : Type) : Type :=
| Ok (a : A)
| Raise (e : exn).

Arguments Ok {A} a.
Arguments Raise {A} e.

Definition bind {A B : Type} (r : result A) (k : A -> result B) : result B :=
  match r with
  | Ok a => k a
  | Raise e => Raise e
  end.

Notation "x <- r ;; k" := (bind r (fun x => k))
  (at level 61, r at next level, right associativity).
Notation "' p <- r ;; k" := (bind r (fun x => let 'p := x in k))
  (at level 61, p pattern, r at next level, right associativity).

(** ** Colours and pixels *)

(** A colour is the tuple [(r, g, b)]; [c[0]], [c[1]], [c[2]] are its
    channels. *)
Definition color : Type := (Z * Z * Z)%type.

Definition chan0 (c : color) : Z := fst (fst c).
Definition chan1 (c : color) : Z := snd (fst c).
Definition chan2 (c : color) : Z := snd c.

(** An unsigned 8-bit channel value. *)
Definition is_u8 (v : Z) : Prop := 0 <= v <= 255.

Definition color_ok (c : color) : Prop :=
  is_u8 (chan0 c) /\ is_u8 (chan1 c) /\ is_u8 (chan2 c).

(** An RGBA pixel [(r, g, b, a)], as [getdata()] of an RGBA image yields
    them. *)
Definition pixel : Type := (Z * Z * Z * Z)%type.

(** [item[:3]] *)
Definition rgb (item : pixel) : color := fst item.

(** [item[3]] *)
Definition alpha (item : pixel) : Z := snd item.

(** The fully transparent pixel [(0, 0, 0, 0)]. *)
Definition transparent : pixel := (0, 0, 0, 0).

(** The sum of squared channel differences of two colours. *)
Definition sq_dist (p t : color) : Z :=
  Z.abs (chan0 p - chan0 t) ^ 2 + Z.abs (chan1 p - chan1 t) ^ 2
  + Z.abs (chan2 p - chan2 t) ^ 2.

(** The largest squared distance between two 8-bit colours, [3 * 255^2]. *)
Definition max_sq_dist : Z := 195075.

(** ** Images *)

(** An RGBA image: its size and its pixels in row-major order. *)
Record rgba_image : Type := {
  im_width : Z;
  im_height : Z;
  im_data : list pixel
}.

(** A frame of the sequence, as [frame.convert('RGBA')] and the entry
    [frame.info.get("duration")] give it. *)
Record gif_frame : Type := {
  frame_rgba : rgba_image;
  frame_duration : option Z
}.

(** The opened animation: [img.width], [img.height] and the frames
    [ImageSequence.Iterator(img)] yields. *)
Record gif_image : Type := {
  img_width : Z;
  img_height : Z;
  img_frames : list gif_frame
}.

(** A palette image (mode P): the flat palette [r0, g0, b0, r1, ...], one
    palette index per pixel, and [info['transparency']]. *)
Record indexed_image : Type := {
  p_width : Z;
  p_height : Z;
  p_palette : list Z;
  p_data : list Z;
  p_transparency : option Z
}.

(** The running bounding box. *)
Record bbox : Type := {
  min_x : Z;
  min_y : Z;
  max_x : Z;
  max_y : Z
}.

(** An image of Pillow holds [width * height] pixels; every frame of the
    sequence has the size of the animation. *)
Definition gif_wf (img : gif_image) : Prop :=
  0 < img_width img /\ 0 < img_height img
  /\ Forall (fun fr => im_width (frame_rgba fr) = img_width img
                       /\ im_height (frame_rgba fr) = img_height img
                       /\ Z.of_nat (length (im_data (frame_rgba fr)))
                          = img_width img * img_height img)
            (img_frames img).

(** ** Pillow operations used by the program *)

(** [im.putdata(data)], for a sequence with one entry per pixel. *)
Definition putdata (im : rgba_image) (data : list pixel) : rgba_image :=
  {| im_width := im_width im; im_height := im_height im; im_data := data |}.

(** [im.getpixel((x, y))], transparent outside the image. *)
Definition getpixel (im : rgba_image) (x y : Z) : pixel :=
  if (0 <=? x) && (x <? im_width im) && (0 <=? y) && (y <? im_height im)
  then nth (Z.to_nat (y * im_width im + x)) (im_data im) transparent
  else transparent.

(** [im.crop((left, upper, right, lower))]: the image of size
    [right - left] by [lower - upper] whose pixel [(i, j)] is the source
    pixel [(left + i, upper + j)]. *)
Definition crop (im : rgba_image) (left upper right lower : Z) : rgba_image :=
  {| im_width := right - left;
     im_height := lower - upper;
     im_data :=
       flat_map (fun y => map (fun x => getpixel im x y)
                              (zrange left (Z.to_nat (right - left))))
                (zrange upper (Z.to_nat (lower - upper))) |}.

(** [l[i:j] = v] on a Python list: both bounds are clipped to the length. *)
Definition slice_assign {A : Type} (l : list A) (i j : nat) (v : list A)
  : list A :=
  firstn i l ++ v ++ skipn (Nat.max i j) l.

(** [l[i] = v] for [i < len(l)]. *)
Definition list_set {A : Type} (l : list A) (i : nat) (v : A) : list A :=
  firstn i l ++ v :: skipn (S i) l.

(** ** The classifier *)

Section Program.

(** [float_pow x y] is [x ** y] on floats, which CPython hands to the C
    library's [pow]. *)
Variable float_pow : float -> float -> float.

(** [threshold = fuzz_percentage / 100 * 255] *)
Definition fuzz_threshold (fuzz_percentage : Z) : float :=
  (PyFloat.truediv fuzz_percentage 100 * PyFloat.of_int 255)%float.

(** [GifBackgroundRemover.color_within_fuzz] *)
Definition color_within_fuzz
    (pixel_color target_color : color) (fuzz_percentage : Z) : bool :=
  let threshold := fuzz_threshold fuzz_percentage in
  let r_diff := Z.abs (chan0 pixel_color - chan0 target_color) in
  let g_diff := Z.abs (chan1 pixel_color - chan1 target_color) in
  let b_diff := Z.abs (chan2 pixel_color - chan2 target_color) in
  let distance :=
    float_pow (PyFloat.of_int (r_diff ^ 2 + g_diff ^ 2 + b_diff ^ 2))
              PyFloat.half in
  (distance <=? threshold)%float.

(** ** [process_gif] *)

(** [frame_p = cropped_frame.convert('P', palette=Image.ADAPTIVE, colors=255)]:
    Pillow's adaptive quantiser. *)
Variable quantize : rgba_image -> indexed_image.

Variable transparency_color : color.
Variable fuzz_percentage : Z.

(** What replaces a pixel in [new_data]. *)
Definition clear_pixel (item : pixel) : pixel :=
  if color_within_fuzz (rgb item) transparency_color fuzz_percentage
  then transparent else item.

(** The body of [for index, item in enumerate(datas)]. *)
Definition pixel_step (width : Z)
    (st : result (list pixel * list (Z * Z))) (entry : Z * pixel)
  : result (list pixel * list (Z * Z)) :=
  '(new_data, non_transparent_pixels) <- st ;;
  let '(index, item) := entry in
  if color_within_fuzz (rgb item) transparency_color fuzz_percentage then
    Ok (new_data ++ [transparent], non_transparent_pixels)
  else if width =? 0 then Raise ZeroDivisionError
  else
    let x := index mod width in
    let y := index / width in
    Ok (new_data ++ [item], non_transparent_pixels ++ [(x, y)]).

(** The pixel loop of one frame, up to [frame_rgba.putdata(new_data)]. *)
Definition remove_background (frame_rgba : rgba_image)
  : result (rgba_image * list (Z * Z)) :=
  let datas := im_data frame_rgba in
  '(new_data, non_transparent_pixels) <-
    fold_left (pixel_step (im_width frame_rgba)) (enumerate datas)
              (Ok ([], [])) ;;
  Ok (putdata frame_rgba new_data, non_transparent_pixels).

(** The body of [for x, y in non_transparent_pixels]. *)
Definition grow_box (b : bbox) (xy : Z * Z) : bbox :=
  let '(x, y) := xy in
  {| min_x := if x <? min_x b then x else min_x b;
     min_y := if y <? min_y b then y else min_y b;
     max_x := if x >? max_x b then x else max_x b;
     max_y := if y >? max_y b then y else max_y b |}.

(** [min_x = img.width; min_y = img.height; max_x = 0; max_y = 0] *)
Definition initial_box (img : gif_image) : bbox :=
  {| min_x := img_width img; min_y := img_height img;
     max_x := 0; max_y := 0 |}.

(** [frame.info.get("duration", 100)] *)
Definition duration_of (frame : gif_frame) : Z :=
  match frame_duration frame with
  | Some d => d
  | None => 100
  end.

(** The body of [for frame in ImageSequence.Iterator(img)]. *)
Definition frame_step
    (st : result (bbox * list (rgba_image * Z))) (frame : gif_frame)
  : result (bbox * list (rgba_image * Z)) :=
  '(box, temp_frames) <- st ;;
  let duration := duration_of frame in
  '(frame_rgba, non_transparent_pixels) <-
    remove_background (frame_rgba frame) ;;
  Ok (fold_left grow_box non_transparent_pixels box,
      temp_frames ++ [(frame_rgba, duration)]).

(** The first loop of [process_gif]: the transparency pass over all frames. *)
Definition transparency_pass (img : gif_image)
  : result (bbox * list (rgba_image * Z)) :=
  fold_left frame_step (img_frames img) (Ok (initial_box img, [])).

(** [min_x > max_x or min_y > max_y] *)
Definition box_empty (b : bbox) : bool :=
  (min_x b >? max_x b) || (min_y b >? max_y b).

(** [new_width] and [new_height], after the clamp to the original size. *)
Definition new_width (img : gif_image) (b : bbox) : Z :=
  Z.min (max_x b - min_x b + 1) (img_width img).

Definition new_height (img : gif_image) (b : bbox) : Z :=
  Z.min (max_y b - min_y b + 1) (img_height img).

(** [frame_rgba.crop((min_x, min_y, max_x + 1, max_y + 1))] *)
Definition crop_to_box (b : bbox) (frame_rgba : rgba_image) : rgba_image :=
  crop frame_rgba (min_x b) (min_y b) (max_x b + 1) (max_y b + 1).

(** [palette[255 * 3:255 * 3 + 3] = transparency_color[:3]] *)
Definition reserve_palette (palette : list Z) : list Z :=
  slice_assign palette (255 * 3) (255 * 3 + 3)
    [chan0 transparency_color; chan1 transparency_color;
     chan2 transparency_color].

(** The body of [for i in range(len(frame_p_data))]. *)
Definition remap_step (pixels : list pixel)
    (st : result (list Z)) (i : nat) : result (list Z) :=
  frame_p_data <- st ;;
  match nth_error pixels i with
  | None => Raise IndexError
  | Some px =>
      if alpha px =? 0 then Ok (list_set frame_p_data i 255)
      else Ok frame_p_data
  end.

Definition remap_transparent (frame_p_data : list Z) (pixels : list pixel)
  : result (list Z) :=
  fold_left (remap_step pixels) (seq 0 (length frame_p_data))
            (Ok frame_p_data).

(** One frame of the second loop: crop, quantise, reserve palette entry
    255, send transparent pixels to index 255, mark the index. *)
Definition index_frame (b : bbox) (frame_rgba : rgba_image)
  : result indexed_image :=
  let cropped_frame := crop_to_box b frame_rgba in
  let frame_p := quantize cropped_frame in
  let palette := reserve_palette (p_palette frame_p) in
  let pixels := im_data cropped_frame in
  frame_p_data <- remap_transparent (p_data frame_p) pixels ;;
  Ok {| p_width := p_width frame_p;
        p_height := p_height frame_p;
        p_palette := palette;
        p_data := frame_p_data;
        p_transparency := Some 255 |}.

(** The body of [for frame_rgba, duration in temp_frames]. *)
Definition crop_step (b : bbox)
    (st : result (list indexed_image * list Z)) (entry : rgba_image * Z)
  : result (list indexed_image * list Z) :=
  '(processed_frames, processed_durations) <- st ;;
  let '(frame_rgba, duration) := entry in
  frame_p <- index_frame b frame_rgba ;;
  Ok (processed_frames ++ [frame_p], processed_durations ++ [duration]).

(** The arguments of the final [save] call. *)
Record save_call : Type := {
  save_first : indexed_image;
  save_append_images : list indexed_image;
  save_duration : list Z;
  save_loop : Z;
  save_transparency : Z;
  save_disposal : Z
}.

(** How a run of [process_gif] ends. *)
Inductive outcome : Type :=
| NoSelection
| NoContent
| Saved (call : save_call)
| ProcessingError (e : exn).

(** From the bounding box to the [save] call. *)
Definition crop_and_save (b : bbox) (temp_frames : list (rgba_image * Z))
  : result save_call :=
  '(processed_frames, processed_durations) <-
    fold_left (crop_step b) temp_frames (Ok ([], [])) ;;
  match processed_frames with
  | [] => Raise IndexError
  | first :: rest =>
      Ok {| save_first := first;
            save_append_images := rest;
            save_duration := processed_durations;
            save_loop := 0;
            save_transparency := 255;
            save_disposal := 2 |}
  end.

(** The frames a [save] call writes, in order. *)
Definition saved_frames (call : save_call) : list indexed_image :=
  save_first call :: save_append_images call.

(** ** The loops in closed form

    What the loops above compute when no exception is raised; Part II proves
    the loops equal to them. *)

(** The coordinates appended to [non_transparent_pixels], in scan order,
    for the pixels from position [index] on. *)
Fixpoint kept_coords (width index : Z) (datas : list pixel) : list (Z * Z) :=
  match datas with
  | [] => []
  | item :: rest =>
      if color_within_fuzz (rgb item) transparency_color fuzz_percentage
      then kept_coords width (index + 1) rest
      else (index mod width, index / width)
           :: kept_coords width (index + 1) rest
  end.

(** The entry of [temp_frames] a frame gives. *)
Definition clear_frame (frame : gif_frame) : rgba_image * Z :=
  (putdata (frame_rgba frame) (map clear_pixel (im_data (frame_rgba frame))),
   duration_of frame).

(** The bounding box after the frames [frames], starting from [b]. *)
Definition grow_box_frames (b : bbox) (frames : list gif_frame) : bbox :=
  fold_left
    (fun box frame =>
       fold_left grow_box
         (kept_coords (im_width (frame_rgba frame)) 0
                      (im_data (frame_rgba frame)))
         box)
    frames b.

Definition pass_box (img : gif_image) : bbox :=
  grow_box_frames (initial_box img) (img_frames img).

(** Index 255 wherever the cropped pixel has alpha 0, the quantiser's index
    elsewhere. *)
Definition remap_index (entry : Z * pixel) : Z :=
  if alpha (snd entry) =? 0 then 255 else fst entry.

Definition remapped (frame_p_data : list Z) (pixels : list pixel) : list Z :=
  map remap_index (combine frame_p_data pixels).

Definition indexed_frame (b : bbox) (frame_rgba : rgba_image)
  : indexed_image :=
  let cropped_frame := crop_to_box b frame_rgba in
  let frame_p := quantize cropped_frame in
  {| p_width := p_width frame_p;
     p_height := p_height frame_p;
     p_palette := reserve_palette (p_palette frame_p);
     p_data := remapped (p_data frame_p) (im_data cropped_frame);
     p_transparency := Some 255 |}.

End Program.

(** [GifBackgroundRemover.process_gif]: [gif] is the decoded file at
    [self.gif_path], [selected_color] is [self.selected_color] and
    [fuzz_percentage] the slider's value. *)
Definition process_gif
    (float_pow : float -> float -> float)
    (quantize : rgba_image -> indexed_image)
    (gif : option gif_image) (selected_color : option color)
    (fuzz_percentage : Z) : outcome :=
  match gif, selected_color with
  | Some img, Some transparency_color =>
      match transparency_pass float_pow transparency_color fuzz_percentage img
      with
      | Raise e => ProcessingError e
      | Ok (box, temp_frames) =>
          if box_empty box then NoContent
          else
            match crop_and_save quantize transparency_color box temp_frames
            with
            | Raise e => ProcessingError e
            | Ok call => Saved call
            end
      end
  | _, _ => NoSelection
  end.

(** ** The encoder

    [processed_frames[0].save(..., save_all=True, append_images=...,
    duration=processed_durations, ...)] is Pillow's GIF writer and is not
    part of the program.  What it does with the durations is modelled after
    its behaviour: the writer goes through the frames in order and keeps a
    frame only when it differs from the last frame kept; the duration of a
    frame that does not differ is added to the duration of the last frame
    kept.  The file stores a duration in hundredths of a second, in an
    unsigned 16-bit field, and a decoder reads it back in milliseconds.  The
    test for a difference is Pillow's and is a parameter here,
    [frames_differ previous_im im_frame]. *)
Section Writer.

Variable frames_differ : indexed_image -> indexed_image -> bool.

(** The frames written from the last frame kept on, each with its duration
    in milliseconds. *)
Fixpoint write_frames (previous_im : indexed_image) (previous_duration : Z)
    (rest : list (indexed_image * Z)) : list (indexed_image * Z) :=
  match rest with
  | [] => [(previous_im, previous_duration)]
  | (im_frame, duration) :: rest' =>
      if frames_differ previous_im im_frame
      then (previous_im, previous_duration)
           :: write_frames im_frame duration rest'
      else write_frames previous_im (previous_duration + duration) rest'
  end.

(** The frames of the written animation; frame number [k] of the call has
    the duration [duration[k]]. *)
Definition written_frames (call : save_call) : list (indexed_image * Z) :=
  match combine (saved_frames call) (save_duration call) with
  | [] => []
  | (im_frame, duration) :: rest => write_frames im_frame duration rest
  end.

(** A duration as the file holds it: [int(duration / 10)] hundredths of a
    second, read back as milliseconds. *)
Definition file_duration (duration : Z) : Z := 10 * (duration / 10).

(** The per-frame durations of the written animation. *)
Definition written_durations (call : save_call) : list Z :=
  map (fun entry => file_duration (snd entry)) (written_frames call).

(** Every frame after [previous_im] differs from the frame before it. *)
Fixpoint differ_from (previous_im : indexed_image)
    (rest : list indexed_image) : bool :=
  match rest with
  | [] => true
  | im_frame :: rest' =>
      frames_differ previous_im im_frame && differ_from im_frame rest'
  end.

Definition consecutive_differ (frames : list indexed_image) : bool :=
  match frames with
  | [] => true
  | im_frame :: rest => differ_from im_frame rest
  end.

End Writer.

(** A duration that a GIF file holds: a whole number of hundredths of a
    second that fits 16 bits, in milliseconds. *)
Definition gif_duration (duration : Z) : Prop :=
  0 <= duration < 655360 /\ duration mod 10 = 0.

(** A test that finds a difference when the size, the palette or the indices
    are not the same, for the examples. *)
Definition indexed_differ (a b : indexed_image) : bool :=
  negb ((p_width a =? p_width b) && (p_height a =? p_height b)
        && (if list_eq_dec Z.eq_dec (p_palette a) (p_palette b)
            then true else false)
        && (if list_eq_dec Z.eq_dec (p_data a) (p_data b)
            then true else false)).

(** ** Accuracy of [pow] at exponent one half

    The C standard does not require [pow] to be correctly rounded, so the
    classifier is stated for every [float_pow] that meets the following
    assumption on the arguments the classifier can pass: [pow(n, 0.5)] is the
    exact root when [n] is a perfect square, and otherwise lies between the two
    binary64 neighbours of the correctly rounded square root.  The correctly
    rounded [pow] meets it (lemma [sqrt_pow_accurate]). *)

Definition is_square (n : Z) : bool := Z.sqrt n * Z.sqrt n =? n.

Definition sqrt_lo (n : Z) : float :=
  let s := PrimFloat.sqrt (PyFloat.of_int n) in
  if is_square n then s else PrimFloat.next_down s.

Definition sqrt_hi (n : Z) : float :=
  let s := PrimFloat.sqrt (PyFloat.of_int n) in
  if is_square n then s else PrimFloat.next_up s.

Definition pow_half_accurate (float_pow : float -> float -> float) : Prop :=
  forall n, 0 <= n <= max_sq_dist ->
    ((sqrt_lo n <=? float_pow (PyFloat.of_int n) PyFloat.half)%float
     && (float_pow (PyFloat.of_int n) PyFloat.half <=? sqrt_hi n)%float) = true.

(** The correctly rounded [pow] at exponent one half is the IEEE square
    root. *)
Definition sqrt_pow (x y : float) : float := PrimFloat.sqrt x.

(** ** The contract of the quantiser

    [convert] keeps the size of the image and yields one palette index per
    pixel. *)
Definition quantize_keeps_size (quantize : rgba_image -> indexed_image)
  : Prop :=
  forall im,
    p_width (quantize im) = im_width im
    /\ p_height (quantize im) = im_height im
    /\ length (p_data (quantize im)) = length (im_data im).

(** [getpalette()] yields a table that reaches entry 255 (Pillow's classic
    palettes hold all 256 entries, 768 values). *)
Definition quantize_palette_reaches_255
    (quantize : rgba_image -> indexed_image) : Prop :=
  forall im, (765 <= length (p_palette (quantize im)))%nat.

(** A quantiser that sends every pixel to entry 0 of an all-black palette of
    256 entries, for the examples. *)
Definition flat_quantize (im : rgba_image) : indexed_image :=
  {| p_width := im_width im;
     p_height := im_height im;
     p_palette := repeat 0 768;
     p_data := map (fun _ => 0) (im_data im);
     p_transparency := None |}.

(** ** Checks evaluated once, on all distances and all percentages *)

(** One link of the chain: the bracket around the root of [n] is ordered,
    contains the correctly rounded root, and lies below the bracket of
    [n + 1]. *)
Definition chain_link (n : Z) : bool :=
  let s := PrimFloat.sqrt (PyFloat.of_int n) in
  ((sqrt_lo n <=? s)%float && (s <=? sqrt_hi n)%float)
  && ((n =? max_sq_dist) || (sqrt_hi n <=? sqrt_lo (n + 1))%float).

(** The largest squared distance a percentage admits:
    [floor ((fuzz * 255 / 100)^2) = floor (2601 * fuzz^2 / 400)]. *)
Definition sq_cut (fuzz : Z) : Z := 2601 * (fuzz * fuzz) / 400.

Definition cut_checked_at (fuzz : Z) : bool :=
  let t := fuzz_threshold fuzz in
  let k := sq_cut fuzz in
  (sqrt_hi k <=? t)%float
  && ((k =? max_sq_dist) || negb (sqrt_lo (k + 1) <=? t)%float).

(** ** Bounding boxes as sets of coordinates *)

(** The box lies inside an image of the given size (an empty box may have
    [min_x = width], as the initial one has). *)
Definition box_within (width height : Z) (b : bbox) : Prop :=
  (0 <= min_x b <= width /\ 0 <= max_x b <= width - 1)
  /\ (0 <= min_y b <= height /\ 0 <= max_y b <= height - 1).

(** The box contains the coordinate. *)
Definition covers (b : bbox) (xy : Z * Z) : Prop :=
  (min_x b <= fst xy <= max_x b) /\ (min_y b <= snd xy <= max_y b).

(** The second box extends the first. *)
Definition box_le (b b' : bbox) : Prop :=
  (min_x b' <= min_x b /\ max_x b <= max_x b')
  /\ (min_y b' <= min_y b /\ max_y b <= max_y b').

(** ** Example animations *)

(** A single frame of [n] pixels of one colour, opaque. *)
Definition solid_frame (width height : Z) (c : color) : gif_frame :=
  {| frame_rgba :=
       {| im_width := width; im_height := height;
          im_data := repeat (c, 255) (Z.to_nat (width * height)) |};
     frame_duration := None |}.

(** The 10 by 10 animation of one solid frame. *)
Definition solid_10x10 : gif_image :=
  {| img_width := 10; img_height := 10;
     img_frames := [solid_frame 10 10 (7, 7, 7)] |}.

(** A 4 by 4 white frame with a 2 by 2 red block at columns 1-2, rows 2-3,
    shown for 40 ms, followed by an all-white frame without a duration. *)
Definition white : pixel := (255, 255, 255, 255).
Definition red : pixel := (200, 0, 0, 255).

Definition block_4x4 : gif_image :=
  {| img_width := 4; img_height := 4;
     img_frames :=
       [ {| frame_rgba :=
              {| im_width := 4; im_height := 4;
                 im_data := [white; white; white; white;
                             white; white; white; white;
                             white; red;   red;   white;
                             white; red;   red;   white] |};
            frame_duration := Some 40 |};
         {| frame_rgba :=
              {| im_width := 4; im_height := 4;
                 im_data := repeat white 16 |};
            frame_duration := None |} ] |}.

(** Two equal 2 by 2 frames, white with one red pixel at column 1, row 0,
    shown for 40 ms and for 60 ms. *)
Definition twins : gif_image :=
  {| img_width := 2; img_height := 2;
     img_frames :=
       [ {| frame_rgba :=
              {| im_width := 2; im_height := 2;
                 im_data := [white; red; white; white] |};
            frame_duration := Some 40 |};
         {| frame_rgba :=
              {| im_width := 2; im_height := 2;
                 im_data := [white; red; white; white] |};
            frame_duration := Some 60 |} ] |}.

(** ** Pixels that stay *)

(** Some frame of the animation has, at column [fst xy] and row [snd xy], a
    pixel that the classifier does not take for background. *)
Definition kept_pixel (float_pow : float -> float -> float)
    (transparency_color : color) (fuzz_percentage : Z) (img : gif_image)
    (xy : Z * Z) : Prop :=
  exists fr i item,
    In fr (img_frames img)
    /\ nth_error (im_data (frame_rgba fr)) i = Some item
    /\ color_within_fuzz float_pow (rgb item) transparency_color
                         fuzz_percentage = false
    /\ xy = (Z.of_nat i mod im_width (frame_rgba fr),
             Z.of_nat i / im_width (frame_rgba fr)).

(** Every pixel of every frame has 8-bit colour channels. *)
Definition gif_colors_ok (img : gif_image) : Prop :=
  Forall (fun fr => Forall (fun item => color_ok (rgb item))
                           (im_data (frame_rgba fr)))
         (img_frames img).

(** A coordinate recorded in [non_transparent_pixels] for one of the
    frames. *)
Definition recorded (float_pow : float -> float -> float)
    (transparency_color : color) (fuzz_percentage : Z)
    (frames : list gif_frame) (xy : Z * Z) : Prop :=
  exists fr, In fr frames
    /\ In xy (kept_coords float_pow transparency_color fuzz_percentage
                          (im_width (frame_rgba fr)) 0
                          (im_data (frame_rgba fr))).

(** The first frame of the 4 by 4 example. *)
Definition block_4x4_frame0 : gif_frame :=
  nth 0 (img_frames block_4x4) (solid_frame 4 4 (255, 255, 255)).

(** ** The widget

    [GifBackgroundRemover] as a state record and its slots as functions on
    the state and on the files on disk.  What the slots ask the outside world
    (the file dialogs, whether the codec, [shutil.copy] and [os.remove]
    succeed) is an argument of the slot.  Message boxes repeat the text put on
    the status label and are not modelled; window geometry is left out.

    A slot is one call that runs to its end.  [process_gif] calls
    [QApplication.processEvents()] (lines 343, 352, 406, 409 and 440), where
    Qt may dispatch a pending click and run another slot before the call
    goes on; such nested calls are not modelled, so what is proved of a slot
    is proved of a call during which no other slot runs. *)
Module Ui.

(** A path; the empty string is what a cancelled file dialog returns. *)
Definition path : Type := String.string.

(** [bool(p)] for a string. *)
Definition nonempty (p : path) : bool := negb (String.eqb p String.EmptyString).

(** [bool(p)] for an attribute that is [None] or a string. *)
Definition truthy (p : option path) : bool :=
  match p with
  | Some s => nonempty s
  | None => false
  end.

(** The texts of [status_label]. *)
Inductive status : Type :=
| StatusBlank                  (* the empty text *)
| StatusClickColour            (* "Click a colour on the image to select the
                                  background colour." *)
| StatusSelected (c : color)   (* f"Selected color: {self.selected_color}" *)
| StatusSelectFirst            (* "Please select a color first." *)
| StatusAllTransparent         (* "All pixels are transparent after color
                                  removal." *)
| StatusRemoved                (* "Background removed." *)
| StatusProcessError           (* f"Error processing GIF: {e}" *)
| StatusSavedAs (p : path)     (* f"Processed GIF saved as {save_path}" *)
| StatusSaveError              (* f"Error saving GIF: {e}" *)
| StatusDeleteFailed           (* "Unable to delete temporary file." *).

(** The attributes of the widget and the state of its controls. *)
Record widget : Type := {
  gif_path : option path;
  selected_color : option color;
  processed_gif_path : option path;
  movie : option path;
  status_label : status;
  open_button_hidden : bool;
  process_button_hidden : bool;
  process_button_enabled : bool;
  save_button_hidden : bool;
  fuzz_slider_hidden : bool;
  fuzz_label_hidden : bool;
  info_label_hidden : bool;
  fuzz_slider_value : Z;
  fuzz_label_value : Z
}.

(** What a file holds: the animation a [save] call encoded, or anything
    else. *)
Inductive file : Type :=
| Encoded (call : save_call)
| OtherContent.

(** The files on disk. *)
Definition filesystem : Type := path -> option file.

Definition write_file (fs : filesystem) (p : path) (f : file) : filesystem :=
  fun q => if String.eqb q p then Some f else fs q.

Definition remove_file (fs : filesystem) (p : path) : filesystem :=
  fun q => if String.eqb q p then None else fs q.

(** [os.path.exists(p)] *)
Definition exists_file (fs : filesystem) (p : path) : bool :=
  match fs p with
  | Some _ => true
  | None => false
  end.

(** *** Attribute updates *)

Definition set_gif_path (v : option path) (w : widget) : widget :=
  {| gif_path := v; selected_color := selected_color w;
     processed_gif_path := processed_gif_path w; movie := movie w;
     status_label := status_label w;
     open_button_hidden := open_button_hidden w;
     process_button_hidden := process_button_hidden w;
     process_button_enabled := process_button_enabled w;
     save_button_hidden := save_button_hidden w;
     fuzz_slider_hidden := fuzz_slider_hidden w;
     fuzz_label_hidden := fuzz_label_hidden w;
     info_label_hidden := info_label_hidden w;
     fuzz_slider_value := fuzz_slider_value w;
     fuzz_label_value := fuzz_label_value w |}.

Definition set_selected_color (v : option color) (w : widget) : widget :=
  {| gif_path := gif_path w; selected_color := v;
     processed_gif_path := processed_gif_path w; movie := movie w;
     status_label := status_label w;
     open_button_hidden := open_button_hidden w;
     process_button_hidden := process_button_hidden w;
     process_button_enabled := process_button_enabled w;
     save_button_hidden := save_button_hidden w;
     fuzz_slider_hidden := fuzz_slider_hidden w;
     fuzz_label_hidden := fuzz_label_hidden w;
     info_label_hidden := info_label_hidden w;
     fuzz_slider_value := fuzz_slider_value w;
     fuzz_label_value := fuzz_label_value w |}.

Definition set_processed_gif_path (v : option path) (w : widget) : widget :=
  {| gif_path := gif_path w; selected_color := selected_color w;
     processed_gif_path := v; movie := movie w;
     status_label := status_label w;
     open_button_hidden := open_button_hidden w;
     process_button_hidden := process_button_hidden w;
     process_button_enabled := process_button_enabled w;
     save_button_hidden := save_button_hidden w;
     fuzz_slider_hidden := fuzz_slider_hidden w;
     fuzz_label_hidden := fuzz_label_hidden w;
     info_label_hidden := info_label_hidden w;
     fuzz_slider_value := fuzz_slider_value w;
     fuzz_label_value := fuzz_label_value w |}.

Definition set_movie (v : option path) (w : widget) : widget :=
  {| gif_path := gif_path w; selected_color := selected_color w;
     processed_gif_path := processed_gif_path w; movie := v;
     status_label := status_label w;
     open_button_hidden := open_button_hidden w;
     process_button_hidden := process_button_hidden w;
     process_button_enabled := process_button_enabled w;
     save_button_hidden := save_button_hidden w;
     fuzz_slider_hidden := fuzz_slider_hidden w;
     fuzz_label_hidden := fuzz_label_hidden w;
     info_label_hidden := info_label_hidden w;
     fuzz_slider_value := fuzz_slider_value w;
     fuzz_label_value := fuzz_label_value w |}.

(** [self.status_label.setText(...)] *)
Definition set_status (v : status) (w : widget) : widget :=
  {| gif_path := gif_path w; selected_color := selected_color w;
     processed_gif_path := processed_gif_path w; movie := movie w;
     status_label := v;
     open_button_hidden := open_button_hidden w;
     process_button_hidden := process_button_hidden w;
     process_button_enabled := process_button_enabled w;
     save_button_hidden := save_button_hidden w;
     fuzz_slider_hidden := fuzz_slider_hidden w;
     fuzz_label_hidden := fuzz_label_hidden w;
     info_label_hidden := info_label_hidden w;
     fuzz_slider_value := fuzz_slider_value w;
     fuzz_label_value := fuzz_label_value w |}.

(** [show()] and [hide()] of the three buttons. *)
Definition set_buttons (open_hidden process_hidden save_hidden : bool)
    (w : widget) : widget :=
  {| gif_path := gif_path w; selected_color := selected_color w;
     processed_gif_path := processed_gif_path w; movie := movie w;
     status_label := status_label w;
     open_button_hidden := open_hidden;
     process_button_hidden := process_hidden;
     process_button_enabled := process_button_enabled w;
     save_button_hidden := save_hidden;
     fuzz_slider_hidden := fuzz_slider_hidden w;
     fuzz_label_hidden := fuzz_label_hidden w;
     info_label_hidden := info_label_hidden w;
     fuzz_slider_value := fuzz_slider_value w;
     fuzz_label_value := fuzz_label_value w |}.

(** [self.process_button.setEnabled(True)] *)
Definition enable_process_button (w : widget) : widget :=
  {| gif_path := gif_path w; selected_color := selected_color w;
     processed_gif_path := processed_gif_path w; movie := movie w;
     status_label := status_label w;
     open_button_hidden := open_button_hidden w;
     process_button_hidden := process_button_hidden w;
     process_button_enabled := true;
     save_button_hidden := save_button_hidden w;
     fuzz_slider_hidden := fuzz_slider_hidden w;
     fuzz_label_hidden := fuzz_label_hidden w;
     info_label_hidden := info_label_hidden w;
     fuzz_slider_value := fuzz_slider_value w;
     fuzz_label_value := fuzz_label_value w |}.

(** [show()] or [hide()] of the fuzz slider, its label and the info icon
    together. *)
Definition set_fuzz_hidden (hidden : bool) (w : widget) : widget :=
  {| gif_path := gif_path w; selected_color := selected_color w;
     processed_gif_path := processed_gif_path w; movie := movie w;
     status_label := status_label w;
     open_button_hidden := open_button_hidden w;
     process_button_hidden := process_button_hidden w;
     process_button_enabled := process_button_enabled w;
     save_button_hidden := save_button_hidden w;
     fuzz_slider_hidden := hidden;
     fuzz_label_hidden := hidden;
     info_label_hidden := hidden;
     fuzz_slider_value := fuzz_slider_value w;
     fuzz_label_value := fuzz_label_value w |}.

(** The slider takes a value, kept inside its range [0, 100], and
    [update_fuzz_label] shows it. *)
Definition slider_set (v : Z) (w : widget) : widget :=
  let value := Z.max 0 (Z.min 100 v) in
  {| gif_path := gif_path w; selected_color := selected_color w;
     processed_gif_path := processed_gif_path w; movie := movie w;
     status_label := status_label w;
     open_button_hidden := open_button_hidden w;
     process_button_hidden := process_button_hidden w;
     process_button_enabled := process_button_enabled w;
     save_button_hidden := save_button_hidden w;
     fuzz_slider_hidden := fuzz_slider_hidden w;
     fuzz_label_hidden := fuzz_label_hidden w;
     info_label_hidden := info_label_hidden w;
     fuzz_slider_value := value;
     fuzz_label_value := value |}.

(** *** The slots *)

(** [GifBackgroundRemover.__init__] *)
Definition init : widget :=
  {| gif_path := None; selected_color := None;
     processed_gif_path := None; movie := None;
     status_label := StatusBlank;
     open_button_hidden := false;
     process_button_hidden := true;
     process_button_enabled := true;
     save_button_hidden := true;
     fuzz_slider_hidden := true;
     fuzz_label_hidden := true;
     info_label_hidden := true;
     fuzz_slider_value := 0;
     fuzz_label_value := 0 |}.

(** [GifBackgroundRemover.open_gif]; [chosen] is what the file dialog
    returns. *)
Definition open_gif (chosen : path) (w : widget) : widget :=
  let w := set_gif_path (Some chosen) w in
  if nonempty chosen then
    let w := set_movie (Some chosen) w in
    let w := set_selected_color None w in
    let w := set_buttons true false true w in
    let w := set_fuzz_hidden false w in
    set_status StatusClickColour w
  else w.

(** [GifBackgroundRemover.on_color_selected] *)
Definition on_color_selected (c : color) (w : widget) : widget :=
  let w := set_selected_color (Some c) w in
  let w := set_status (StatusSelected c) w in
  if truthy (gif_path w) then enable_process_button w else w.

(** What a run of [process_gif] meets outside the program: the animation
    [Image.open] and the frame iterator decode ([None] when they raise),
    whether the final [save] completes and, when it does not, whether it left
    a file behind. *)
Record process_env : Type := {
  decoded : option gif_image;
  save_completes : bool;
  save_leaves_file : bool
}.

Section Slots.

Variable float_pow : float -> float -> float.
Variable quantize : rgba_image -> indexed_image.

(** [os.path.join(tempfile.gettempdir(), "temp_output.gif")] *)
Variable temp_output : path.

(** [GifBackgroundRemover.process_gif], with its effects on the widget and
    on the disk. *)
Definition process_gif (env : process_env) (w : widget) (fs : filesystem)
  : widget * filesystem :=
  match truthy (gif_path w), selected_color w with
  | true, Some transparency_color =>
      let fuzz_percentage := fuzz_slider_value w in
      match decoded env with
      | None => (set_status StatusProcessError w, fs)
      | Some img =>
          match transparency_pass float_pow transparency_color
                                  fuzz_percentage img with
          | Raise _ => (set_status StatusProcessError w, fs)
          | Ok (box, temp_frames) =>
              if box_empty box then (set_status StatusAllTransparent w, fs)
              else
                match fold_left (crop_step quantize transparency_color box)
                                temp_frames (Ok ([], [])) with
                | Raise _ => (set_status StatusProcessError w, fs)
                | Ok (processed_frames, processed_durations) =>
                    let w := set_processed_gif_path (Some temp_output) w in
                    match processed_frames with
                    | [] => (set_status StatusProcessError w, fs)
                    | first :: rest =>
                        let call :=
                          {| save_first := first;
                             save_append_images := rest;
                             save_duration := processed_durations;
                             save_loop := 0;
                             save_transparency := 255;
                             save_disposal := 2 |} in
                        if save_completes env then
                          let fs := write_file fs temp_output (Encoded call) in
                          let w := set_movie (Some temp_output) w in
                          let w := set_status StatusRemoved w in
                          let w := set_buttons (open_button_hidden w)
                                               true false w in
                          (set_fuzz_hidden true w, fs)
                        else
                          (set_status StatusProcessError w,
                           if save_leaves_file env
                           then write_file fs temp_output OtherContent
                           else fs)
                    end
                end
          end
      end
  | _, _ => (set_status StatusSelectFirst w, fs)
  end.

End Slots.

(** What [save_gif] meets outside the program: the path the save dialog
    returns, whether [shutil.copy] succeeds on an existing source, and whether
    [os.remove] succeeds ([false]: it raises [PermissionError]). *)
Record save_env : Type := {
  save_path : path;
  copy_succeeds : bool;
  remove_succeeds : bool
}.

(** [shutil.copy(src, dst)]: [None] when it raises (no source file, source
    and destination the same file, or a failure of the disk). *)
Definition copy_file (fs : filesystem) (src dst : path) (succeeds : bool)
  : option filesystem :=
  match fs src with
  | Some f =>
      if succeeds && negb (String.eqb src dst)
      then Some (write_file fs dst f) else None
  | None => None
  end.

(** [GifBackgroundRemover.save_gif] *)
Definition save_gif (env : save_env) (w : widget) (fs : filesystem)
  : widget * filesystem :=
  match processed_gif_path w with
  | None => (w, fs)
  | Some processed =>
      if negb (nonempty processed) then (w, fs)
      else if negb (nonempty (save_path env)) then (w, fs)
      else
        let w := set_movie None w in
        match copy_file fs processed (save_path env) (copy_succeeds env) with
        | None => (set_status StatusSaveError w, fs)
        | Some fs =>
            let w := set_status (StatusSavedAs (save_path env)) w in
            if remove_succeeds env then
              let fs := remove_file fs processed in
              let w := set_processed_gif_path None w in
              let w := set_buttons false (process_button_hidden w) true w in
              (set_fuzz_hidden true w, fs)
            else (set_status StatusDeleteFailed w, fs)
        end
  end.

(** [GifBackgroundRemover.closeEvent]; [remove_succeeds] as for
    [save_gif]. *)
Definition closeEvent (remove_succeeds : bool) (w : widget) (fs : filesystem)
  : widget * filesystem :=
  let w := set_movie None w in
  match processed_gif_path w with
  | Some processed =>
      if nonempty processed && exists_file fs processed then
        (w, if remove_succeeds then remove_file fs processed else fs)
      else (w, fs)
  | None => (w, fs)
  end.

End Ui.

(** A disk without files and a temporary path, for the examples. *)
Definition empty_disk : Ui.filesystem := fun _ => None.

Definition example_temp : Ui.path := "/tmp/temp_output.gif"%string.

Definition example_gif : Ui.path := "/home/user/in.gif"%string.

Definition example_out : Ui.path := "/home/user/out.gif"%string.

(** A session: a file opened, white picked as the background, the slider
    moved to 20. *)
Definition example_widget : Ui.widget :=
  Ui.slider_set 20
    (Ui.on_color_selected (255, 255, 255) (Ui.open_gif example_gif Ui.init)).

(** The codec decodes the 4 by 4 example and writes the result. *)
Definition example_process_env : Ui.process_env :=
  {| Ui.decoded := Some block_4x4;
     Ui.save_completes := true;
     Ui.save_leaves_file := false |}.

(** The user picks [example_out]; copy and removal succeed. *)
Definition example_save_env : Ui.save_env :=
  {| Ui.save_path := example_out;
     Ui.copy_succeeds := true;
     Ui.remove_succeeds := true |}.

(** The example session after a click on Remove Background. *)
Definition example_processed : Ui.widget * Ui.filesystem :=
  Ui.process_gif sqrt_pow flat_quantize example_temp example_process_env
                 example_widget empty_disk.

(** * Part II: properties *)

(** ** Order on floats *)

Lemma SFleb_trans (a b c : spec_float) :
  SFleb a b = true -> SFleb b c = true -> SFleb a c = true.
Proof.
  unfold SFleb.
  destruct a as [sa|sa| |sa ma ea], b as [sb|sb| |sb mb eb],
           c as [sc|sc| |sc mc ec]; simpl;
    try destruct sa; try destruct sb; try destruct sc; simpl;
    try reflexivity; try discriminate; intros Hab Hbc.
  - change (Pos.compare_cont Eq ma mb) with (Pos.compare ma mb) in Hab.
    change (Pos.compare_cont Eq mb mc) with (Pos.compare mb mc) in Hbc.
    change (Pos.compare_cont Eq ma mc) with (Pos.compare ma mc).
    destruct (Z.compare_spec ea eb), (Z.compare_spec eb ec),
             (Z.compare_spec ea ec); try lia; try discriminate;
      try reflexivity.
    destruct (Pos.compare_spec ma mb), (Pos.compare_spec mb mc),
             (Pos.compare_spec ma mc); try lia; try discriminate;
      reflexivity.
  - change (Pos.compare_cont Eq ma mb) with (Pos.compare ma mb) in Hab.
    change (Pos.compare_cont Eq mb mc) with (Pos.compare mb mc) in Hbc.
    change (Pos.compare_cont Eq ma mc) with (Pos.compare ma mc).
    destruct (Z.compare_spec ea eb), (Z.compare_spec eb ec),
             (Z.compare_spec ea ec); try lia; try discriminate;
      try reflexivity.
    destruct (Pos.compare_spec ma mb), (Pos.compare_spec mb mc),
             (Pos.compare_spec ma mc); simpl in *; try lia;
      try discriminate; reflexivity.
Qed.

Lemma float_leb_trans (x y z : float) :
  (x <=? y)%float = true -> (y <=? z)%float = true -> (x <=? z)%float = true.
Proof.
  rewrite !FloatAxioms.leb_spec. apply SFleb_trans.
Qed.

(** ** The square roots of [0 .. max_sq_dist], in increasing order *)

Lemma zrange_In (z : Z) (n : nat) (lo : Z) :
  In z (zrange lo n) <-> lo <= z < lo + Z.of_nat n.
Proof.
  revert lo. induction n as [|n IH]; intros lo.
  - simpl. lia.
  - cbn [zrange In]. rewrite IH. lia.
Qed.

Lemma zrange_forallb (P : Z -> bool) (lo : Z) (n : nat) :
  forallb P (zrange lo n) = true ->
  forall z, lo <= z < lo + Z.of_nat n -> P z = true.
Proof.
  intros H z Hz. rewrite forallb_forall in H. apply H, zrange_In, Hz.
Qed.

Lemma chain_checked :
  forallb chain_link (zrange 0 (Z.to_nat (max_sq_dist + 1))) = true.
Proof. vm_cast_no_check (eq_refl true). Qed.

Lemma chain_link_ok (n : Z) :
  0 <= n <= max_sq_dist -> chain_link n = true.
Proof.
  intros Hn. apply (zrange_forallb _ _ _ chain_checked).
  unfold max_sq_dist in *. lia.
Qed.

Lemma sqrt_lo_le_sqrt (n : Z) :
  0 <= n <= max_sq_dist ->
  (sqrt_lo n <=? PrimFloat.sqrt (PyFloat.of_int n))%float = true.
Proof.
  intros Hn. pose proof (chain_link_ok n Hn) as H. unfold chain_link in H.
  cbv zeta in H. apply andb_prop in H as [H _].
  apply andb_prop in H as [H _]. exact H.
Qed.

Lemma sqrt_le_sqrt_hi (n : Z) :
  0 <= n <= max_sq_dist ->
  (PrimFloat.sqrt (PyFloat.of_int n) <=? sqrt_hi n)%float = true.
Proof.
  intros Hn. pose proof (chain_link_ok n Hn) as H. unfold chain_link in H.
  cbv zeta in H. apply andb_prop in H as [H _].
  apply andb_prop in H as [_ H]. exact H.
Qed.

Lemma sqrt_lo_le_hi (n : Z) :
  0 <= n <= max_sq_dist -> (sqrt_lo n <=? sqrt_hi n)%float = true.
Proof.
  intros Hn. eapply float_leb_trans.
  - apply sqrt_lo_le_sqrt, Hn.
  - apply sqrt_le_sqrt_hi, Hn.
Qed.

Lemma sqrt_hi_le_next (n : Z) :
  0 <= n < max_sq_dist -> (sqrt_hi n <=? sqrt_lo (n + 1))%float = true.
Proof.
  intros Hn. assert (Hn' : 0 <= n <= max_sq_dist) by lia.
  pose proof (chain_link_ok n Hn') as H. unfold chain_link in H.
  cbv zeta in H. apply andb_prop in H as [_ H].
  apply orb_prop in H as [H|H]; [|exact H].
  apply Z.eqb_eq in H. lia.
Qed.

(** The brackets of two different arguments do not overlap. *)
Lemma sqrt_hi_le_lo (n m : Z) :
  0 <= n -> n < m -> m <= max_sq_dist ->
  (sqrt_hi n <=? sqrt_lo m)%float = true.
Proof.
  intros Hn Hnm Hm.
  assert (H : forall k : nat, forall a, 0 <= a ->
             a + 1 + Z.of_nat k <= max_sq_dist ->
             (sqrt_hi a <=? sqrt_lo (a + 1 + Z.of_nat k))%float = true).
  { induction k as [|k IH]; intros a Ha Hk.
    - replace (a + 1 + Z.of_nat 0) with (a + 1) by lia.
      apply sqrt_hi_le_next. lia.
    - replace (a + 1 + Z.of_nat (S k)) with ((a + 1 + Z.of_nat k) + 1) by lia.
      eapply float_leb_trans; [apply IH; lia|].
      eapply float_leb_trans; [apply sqrt_lo_le_hi; lia|].
      apply sqrt_hi_le_next. lia. }
  replace m with (n + 1 + Z.of_nat (Z.to_nat (m - n - 1))) by lia.
  apply H; lia.
Qed.

Lemma sqrt_hi_mono (n m : Z) :
  0 <= n -> n <= m -> m <= max_sq_dist ->
  forall t, (sqrt_hi m <=? t)%float = true -> (sqrt_hi n <=? t)%float = true.
Proof.
  intros Hn Hnm Hm t Ht.
  destruct (Z.eq_dec n m) as [->|Hne]; [exact Ht|].
  eapply float_leb_trans; [apply (sqrt_hi_le_lo n m); lia|].
  eapply float_leb_trans; [apply sqrt_lo_le_hi; lia|exact Ht].
Qed.

Lemma sqrt_lo_mono (n m : Z) :
  0 <= n -> n <= m -> m <= max_sq_dist ->
  forall t, (sqrt_lo m <=? t)%float = true -> (sqrt_lo n <=? t)%float = true.
Proof.
  intros Hn Hnm Hm t Ht.
  destruct (Z.eq_dec n m) as [->|Hne]; [exact Ht|].
  eapply float_leb_trans; [apply sqrt_lo_le_hi; lia|].
  eapply float_leb_trans; [apply (sqrt_hi_le_lo n m); lia|exact Ht].
Qed.

(** ** Every threshold against the chain *)

Lemma cut_checked : forallb cut_checked_at (zrange 0 101) = true.
Proof. vm_compute. reflexivity. Qed.

Lemma sq_cut_bounds (fuzz : Z) :
  0 <= fuzz <= 100 -> 0 <= sq_cut fuzz < max_sq_dist.
Proof.
  intros Hf. unfold sq_cut, max_sq_dist.
  assert (0 <= fuzz * fuzz <= 10000) by nia.
  split.
  - apply Z.div_pos; lia.
  - apply Z.div_lt_upper_bound; lia.
Qed.

Lemma sq_cut_spec (fuzz n : Z) :
  n <= sq_cut fuzz <-> 400 * n <= 2601 * (fuzz * fuzz).
Proof.
  unfold sq_cut.
  pose proof (Z.div_mod (2601 * (fuzz * fuzz)) 400 ltac:(lia)) as Hdm.
  pose proof (Z.mod_pos_bound (2601 * (fuzz * fuzz)) 400 ltac:(lia)) as Hb.
  lia.
Qed.

(** The float comparison of the classifier decides the integer inequality
    [400 * n <= 2601 * fuzz^2], that is [sqrt n <= fuzz / 100 * 255]. *)
Lemma pow_half_leb_threshold (float_pow : float -> float -> float) :
  pow_half_accurate float_pow ->
  forall n fuzz, 0 <= n <= max_sq_dist -> 0 <= fuzz <= 100 ->
    (float_pow (PyFloat.of_int n) PyFloat.half <=? fuzz_threshold fuzz)%float
    = (400 * n <=? 2601 * (fuzz * fuzz)).
Proof.
  intros Hpw n fuzz Hn Hf.
  pose proof (Hpw n Hn) as Hb. apply andb_prop in Hb as [Hlo Hhi].
  pose proof (zrange_forallb _ _ _ cut_checked fuzz ltac:(simpl; lia)) as Hc.
  unfold cut_checked_at in Hc. cbv zeta in Hc.
  apply andb_prop in Hc as [Hk Hk1].
  pose proof (sq_cut_bounds fuzz Hf) as Hkb.
  pose proof (sq_cut_spec fuzz n) as Hspec.
  destruct (Z_le_gt_dec n (sq_cut fuzz)) as [Hle|Hgt].
  - replace (400 * n <=? 2601 * (fuzz * fuzz)) with true
      by (symmetry; apply Z.leb_le; tauto).
    eapply float_leb_trans; [exact Hhi|].
    apply (sqrt_hi_mono n (sq_cut fuzz)); try lia. exact Hk.
  - replace (400 * n <=? 2601 * (fuzz * fuzz)) with false
      by (symmetry; apply Z.leb_gt; lia).
    apply orb_prop in Hk1 as [Hk1|Hk1]; [apply Z.eqb_eq in Hk1; lia|].
    apply negb_true_iff in Hk1.
    destruct (float_pow (PyFloat.of_int n) PyFloat.half
              <=? fuzz_threshold fuzz)%float eqn:E; [|reflexivity].
    rewrite <- Hk1. symmetry.
    apply (sqrt_lo_mono (sq_cut fuzz + 1) n); try lia.
    eapply float_leb_trans; [exact Hlo|exact E].
Qed.

(** ** The classifier, decided on integers *)

Lemma sqrt_pow_accurate : pow_half_accurate sqrt_pow.
Proof.
  intros n Hn. unfold sqrt_pow.
  rewrite (sqrt_lo_le_sqrt n Hn), (sqrt_le_sqrt_hi n Hn). reflexivity.
Qed.

Lemma sq_dist_bounds (p t : color) :
  color_ok p -> color_ok t -> 0 <= sq_dist p t <= max_sq_dist.
Proof.
  unfold color_ok, is_u8, sq_dist, max_sq_dist.
  intros (Hp0 & Hp1 & Hp2) (Ht0 & Ht1 & Ht2).
  rewrite !Z.pow_2_r. nia.
Qed.

Lemma sq_dist_sym (p t : color) : sq_dist p t = sq_dist t p.
Proof.
  unfold sq_dist.
  replace (Z.abs (chan0 p - chan0 t)) with (Z.abs (chan0 t - chan0 p)) by lia.
  replace (Z.abs (chan1 p - chan1 t)) with (Z.abs (chan1 t - chan1 p)) by lia.
  replace (Z.abs (chan2 p - chan2 t)) with (Z.abs (chan2 t - chan2 p)) by lia.
  reflexivity.
Qed.

Lemma sq_dist_zero (p t : color) : sq_dist p t = 0 <-> p = t.
Proof.
  destruct p as [[p0 p1] p2], t as [[t0 t1] t2].
  unfold sq_dist, chan0, chan1, chan2. cbn [fst snd]. rewrite !Z.pow_2_r.
  split.
  - intros H.
    assert (p0 = t0 /\ p1 = t1 /\ p2 = t2) as (-> & -> & ->) by nia.
    reflexivity.
  - intros H. injection H as -> -> ->. rewrite !Z.sub_diag. reflexivity.
Qed.

Lemma color_within_fuzz_sq_dist (float_pow : float -> float -> float)
    (p t : color) (fuzz : Z) :
  color_within_fuzz float_pow p t fuzz
  = (float_pow (PyFloat.of_int (sq_dist p t)) PyFloat.half
     <=? fuzz_threshold fuzz)%float.
Proof. reflexivity. Qed.

(** For 8-bit colours and a percentage in [0, 100], the classifier answers
    the integer question [400 * d2 <= 2601 * fuzz^2], where [d2] is the
    squared distance: [(fuzz * 255 / 100)^2 = 2601 * fuzz^2 / 400]. *)
Lemma color_within_fuzz_int (float_pow : float -> float -> float) :
  pow_half_accurate float_pow ->
  forall p t fuzz, color_ok p -> color_ok t -> 0 <= fuzz <= 100 ->
    color_within_fuzz float_pow p t fuzz
    = (400 * sq_dist p t <=? 2601 * (fuzz * fuzz)).
Proof.
  intros Hpw p t fuzz Hp Ht Hf. rewrite color_within_fuzz_sq_dist.
  apply pow_half_leb_threshold; auto using sq_dist_bounds.
Qed.

(** ** The classifier and the Euclidean distance *)

(** The squared distance as a real number. *)
Lemma sq_dist_IZR (p t : color) :
  IZR (sq_dist p t)
  = ((IZR (chan0 p) - IZR (chan0 t)) ^ 2
     + (IZR (chan1 p) - IZR (chan1 t)) ^ 2
     + (IZR (chan2 p) - IZR (chan2 t)) ^ 2)%R.
Proof.
  unfold sq_dist. rewrite !Z.pow_2_r, !Z.abs_square.
  rewrite !plus_IZR, !mult_IZR, !minus_IZR. ring.
Qed.

(** [sqrt d2 <= fuzz / 100 * 255] over the reals is the integer inequality
    [400 * d2 <= 2601 * fuzz^2]. *)
Lemma euclidean_le_threshold (d2 fuzz : Z) :
  0 <= d2 -> 0 <= fuzz ->
  (R_sqrt.sqrt (IZR d2) <= IZR fuzz / 100 * 255)%R
  <-> 400 * d2 <= 2601 * (fuzz * fuzz).
Proof.
  intros Hd Hf.
  assert (HdR : (0 <= IZR d2)%R) by (apply IZR_le; exact Hd).
  assert (HfR : (0 <= IZR fuzz)%R) by (apply IZR_le; exact Hf).
  set (T := (IZR fuzz / 100 * 255)%R).
  assert (HT : (0 <= T)%R) by (unfold T; lra).
  assert (HTT : (T * T = IZR (2601 * (fuzz * fuzz)) / 400)%R).
  { unfold T. rewrite !mult_IZR. field. }
  split.
  - intros Hle.
    assert (Hsq : (IZR d2 <= T * T)%R).
    { rewrite <- (sqrt_sqrt (IZR d2) HdR) at 1.
      apply Rmult_le_compat; auto using sqrt_pos. }
    rewrite HTT in Hsq. apply le_IZR. rewrite mult_IZR. lra.
  - intros Hle. apply IZR_le in Hle. rewrite mult_IZR in Hle.
    assert (Hsq : (IZR d2 <= T * T)%R) by (rewrite HTT; lra).
    rewrite <- (sqrt_square T HT). apply sqrt_le_1_alt. exact Hsq.
Qed.

(** C1: for 8-bit colours and a percentage in [0, 100], the classifier
    returns true exactly when the Euclidean distance
    [sqrt ((r1-r2)^2 + (g1-g2)^2 + (b1-b2)^2)] of the two colours is at most
    [fuzz / 100 * 255]; a distance equal to the threshold counts as
    background. *)
Theorem color_within_fuzz_euclidean (float_pow : float -> float -> float)
    (p t : color) (fuzz : Z) :
  pow_half_accurate float_pow ->
  color_ok p -> color_ok t -> 0 <= fuzz <= 100 ->
  color_within_fuzz float_pow p t fuzz = true
  <-> (R_sqrt.sqrt ((IZR (chan0 p) - IZR (chan0 t)) ^ 2
                    + (IZR (chan1 p) - IZR (chan1 t)) ^ 2
                    + (IZR (chan2 p) - IZR (chan2 t)) ^ 2)
       <= IZR fuzz / 100 * 255)%R.
Proof.
  intros Hpw Hp Ht Hf.
  rewrite (color_within_fuzz_int float_pow Hpw p t fuzz Hp Ht Hf).
  rewrite <- sq_dist_IZR, Z.leb_le.
  symmetry. apply euclidean_le_threshold.
  - apply (sq_dist_bounds p t Hp Ht).
  - lia.
Qed.

Lemma color_ok_intro (r g b : Z) :
  0 <= r <= 255 -> 0 <= g <= 255 -> 0 <= b <= 255 -> color_ok (r, g, b).
Proof. intros Hr Hg Hb. repeat split; cbn; lia. Qed.

(** The boundary is inclusive: [(0, 0, 0)] against [(51, 0, 0)] at 20 percent
    is at distance 51 from a threshold of 51. *)
Lemma color_within_fuzz_euclidean_witness :
  color_within_fuzz sqrt_pow (0, 0, 0) (51, 0, 0) 20 = true
  <-> (R_sqrt.sqrt ((IZR (chan0 (0, 0, 0)%Z) - IZR (chan0 (51, 0, 0)%Z)) ^ 2
                    + (IZR (chan1 (0, 0, 0)%Z) - IZR (chan1 (51, 0, 0)%Z)) ^ 2
                    + (IZR (chan2 (0, 0, 0)%Z) - IZR (chan2 (51, 0, 0)%Z)) ^ 2)
       <= IZR 20 / 100 * 255)%R.
Proof.
  apply (color_within_fuzz_euclidean sqrt_pow (0, 0, 0) (51, 0, 0) 20).
  - exact sqrt_pow_accurate.
  - apply color_ok_intro; lia.
  - apply color_ok_intro; lia.
  - lia.
Defined.

Example boundary_is_background :
  color_within_fuzz sqrt_pow (0, 0, 0) (51, 0, 0) 20 = true
  /\ color_within_fuzz sqrt_pow (0, 0, 0) (52, 0, 0) 20 = false.
Proof. split; vm_compute; reflexivity. Qed.

(** ** Full fuzz *)

(** At 100 percent the threshold is 255, and black is farther than that
    from white. *)
Lemma fuzz_100_black_white_not_background :
  color_within_fuzz sqrt_pow (0, 0, 0) (255, 255, 255) 100 = false.
Proof. vm_compute. reflexivity. Qed.

(** However [pow] rounds, black against white is not background at 100
    percent. *)
Lemma fuzz_100_not_total (float_pow : float -> float -> float) :
  pow_half_accurate float_pow ->
  color_within_fuzz float_pow (0, 0, 0) (255, 255, 255) 100 = false.
Proof.
  intros Hpw. rewrite (color_within_fuzz_int float_pow Hpw).
  - reflexivity.
  - apply color_ok_intro; lia.
  - apply color_ok_intro; lia.
  - lia.
Qed.

(** C3, amended: at fuzz 100 a colour is classified as background exactly
    when its squared distance to the target is at most [255^2 = 65025], that
    is when its Euclidean distance is at most 255. *)
Theorem color_within_fuzz_100 (float_pow : float -> float -> float)
    (p t : color) :
  pow_half_accurate float_pow ->
  color_ok p -> color_ok t ->
  color_within_fuzz float_pow p t 100 = (sq_dist p t <=? 65025).
Proof.
  intros Hpw Hp Ht.
  rewrite (color_within_fuzz_int float_pow Hpw p t 100 Hp Ht) by lia.
  destruct (Z.leb_spec (sq_dist p t) 65025);
    [apply Z.leb_le | apply Z.leb_gt]; lia.
Qed.

Lemma color_within_fuzz_100_witness :
  color_within_fuzz sqrt_pow (10, 20, 30) (200, 100, 60) 100
  = (sq_dist (10, 20, 30) (200, 100, 60) <=? 65025).
Proof.
  apply (color_within_fuzz_100 sqrt_pow (10, 20, 30) (200, 100, 60)).
  - exact sqrt_pow_accurate.
  - apply color_ok_intro; lia.
  - apply color_ok_intro; lia.
Defined.

(** ** No fuzz *)

(** C4: at fuzz 0 a colour is background against itself, and no other
    colour is background against it. *)
Theorem color_within_fuzz_0 (float_pow : float -> float -> float)
    (c c' : color) :
  pow_half_accurate float_pow ->
  color_ok c -> color_ok c' ->
  color_within_fuzz float_pow c c 0 = true
  /\ (c' <> c -> color_within_fuzz float_pow c' c 0 = false).
Proof.
  intros Hpw Hc Hc'. split.
  - rewrite (color_within_fuzz_int float_pow Hpw c c 0 Hc Hc) by lia.
    apply Z.leb_le.
    replace (sq_dist c c) with 0 by (symmetry; apply sq_dist_zero; reflexivity).
    lia.
  - intros Hne.
    rewrite (color_within_fuzz_int float_pow Hpw c' c 0 Hc' Hc) by lia.
    apply Z.leb_gt.
    pose proof (sq_dist_bounds c' c Hc' Hc) as Hb.
    assert (sq_dist c' c <> 0) by (rewrite sq_dist_zero; exact Hne).
    lia.
Qed.

Lemma color_within_fuzz_0_witness :
  color_within_fuzz sqrt_pow (12, 200, 7) (12, 200, 7) 0 = true
  /\ ((12, 200, 8) <> (12, 200, 7) ->
      color_within_fuzz sqrt_pow (12, 200, 8) (12, 200, 7) 0 = false).
Proof.
  apply (color_within_fuzz_0 sqrt_pow (12, 200, 7) (12, 200, 8)).
  - exact sqrt_pow_accurate.
  - apply color_ok_intro; lia.
  - apply color_ok_intro; lia.
Defined.

(** ** Monotonicity and symmetry *)

(** C5: the classifier is monotone in the percentage: what is background at
    [f1] is background at every [f2 >= f1]. *)
Theorem color_within_fuzz_monotone (float_pow : float -> float -> float)
    (p t : color) (f1 f2 : Z) :
  pow_half_accurate float_pow ->
  color_ok p -> color_ok t ->
  0 <= f1 -> f1 <= f2 -> f2 <= 100 ->
  color_within_fuzz float_pow p t f1 = true ->
  color_within_fuzz float_pow p t f2 = true.
Proof.
  intros Hpw Hp Ht H1 H12 H2.
  rewrite (color_within_fuzz_int float_pow Hpw p t f1 Hp Ht) by lia.
  rewrite (color_within_fuzz_int float_pow Hpw p t f2 Hp Ht) by lia.
  rewrite !Z.leb_le. intros H. nia.
Qed.

Lemma color_within_fuzz_monotone_witness :
  color_within_fuzz sqrt_pow (100, 100, 100) (110, 105, 98) 5 = true
  /\ color_within_fuzz sqrt_pow (100, 100, 100) (110, 105, 98) 40 = true.
Proof.
  split; [vm_compute; reflexivity|].
  apply (color_within_fuzz_monotone sqrt_pow
           (100, 100, 100) (110, 105, 98) 5 40).
  - exact sqrt_pow_accurate.
  - apply color_ok_intro; lia.
  - apply color_ok_intro; lia.
  - lia.
  - lia.
  - lia.
  - vm_compute. reflexivity.
Defined.

(** C10: the classifier is symmetric in its two colour arguments. *)
Theorem color_within_fuzz_symmetric (float_pow : float -> float -> float)
    (p t : color) (fuzz : Z) :
  color_within_fuzz float_pow p t fuzz = color_within_fuzz float_pow t p fuzz.
Proof.
  rewrite !color_within_fuzz_sq_dist, (sq_dist_sym p t). reflexivity.
Qed.

(** ** The transparency pass *)

Section Pass.

Variable float_pow : float -> float -> float.
Variable transparency_color : color.
Variable fuzz_percentage : Z.

(** One pixel of the loop. *)
Lemma pixel_step_ok (width index : Z) (item : pixel)
    (new_data : list pixel) (non_transparent_pixels : list (Z * Z)) :
  width <> 0 ->
  pixel_step float_pow transparency_color fuzz_percentage width
             (Ok (new_data, non_transparent_pixels)) (index, item)
  = Ok (new_data
        ++ [clear_pixel float_pow transparency_color fuzz_percentage item],
        non_transparent_pixels
        ++ kept_coords float_pow transparency_color fuzz_percentage
                       width index [item]).
Proof.
  intros Hw. unfold pixel_step, clear_pixel. cbn [bind kept_coords].
  destruct (color_within_fuzz float_pow (rgb item) transparency_color
                              fuzz_percentage).
  - rewrite app_nil_r. reflexivity.
  - destruct (Z.eqb_spec width 0) as [E|_]; [contradiction|reflexivity].
Qed.

Lemma kept_coords_cons (width index : Z) (item : pixel) (rest : list pixel) :
  kept_coords float_pow transparency_color fuzz_percentage width index
              (item :: rest)
  = kept_coords float_pow transparency_color fuzz_percentage width index
                [item]
    ++ kept_coords float_pow transparency_color fuzz_percentage width
                   (index + 1) rest.
Proof.
  cbn [kept_coords].
  destruct (color_within_fuzz float_pow (rgb item) transparency_color
                              fuzz_percentage); reflexivity.
Qed.

(** The pixel loop, started anywhere in the scan. *)
Lemma pixel_loop_from (width : Z) (datas : list pixel) :
  width <> 0 ->
  forall index new_data non_transparent_pixels,
    fold_left (pixel_step float_pow transparency_color fuzz_percentage width)
              (combine (zrange index (length datas)) datas)
              (Ok (new_data, non_transparent_pixels))
    = Ok (new_data
          ++ map (clear_pixel float_pow transparency_color fuzz_percentage)
                 datas,
          non_transparent_pixels
          ++ kept_coords float_pow transparency_color fuzz_percentage
                         width index datas).
Proof.
  intros Hw. induction datas as [|item rest IH]; intros index nd ntp.
  - simpl. rewrite !app_nil_r. reflexivity.
  - rewrite (kept_coords_cons width index item rest).
    cbn [length zrange combine fold_left map].
    rewrite (pixel_step_ok _ _ _ _ _ Hw), IH.
    rewrite <- !app_assoc. reflexivity.
Qed.

Lemma remove_background_ok (frame_rgba : rgba_image) :
  im_width frame_rgba <> 0 ->
  remove_background float_pow transparency_color fuzz_percentage frame_rgba
  = Ok (putdata frame_rgba
          (map (clear_pixel float_pow transparency_color fuzz_percentage)
               (im_data frame_rgba)),
        kept_coords float_pow transparency_color fuzz_percentage
                    (im_width frame_rgba) 0 (im_data frame_rgba)).
Proof.
  intros Hw. unfold remove_background, enumerate.
  rewrite (pixel_loop_from _ _ Hw). reflexivity.
Qed.

(** The frame loop, started from any state. *)
Lemma frame_loop_from (frames : list gif_frame) :
  Forall (fun fr => im_width (frame_rgba fr) <> 0) frames ->
  forall box temp_frames,
    fold_left (frame_step float_pow transparency_color fuzz_percentage)
              frames (Ok (box, temp_frames))
    = Ok (grow_box_frames float_pow transparency_color fuzz_percentage
                          box frames,
          temp_frames
          ++ map (clear_frame float_pow transparency_color fuzz_percentage)
                 frames).
Proof.
  induction 1 as [|fr frames Hw _ IH]; intros box temp.
  - simpl. rewrite app_nil_r. reflexivity.
  - cbn [fold_left map]. unfold frame_step at 2. cbn [bind].
    rewrite (remove_background_ok _ Hw). cbn [bind].
    rewrite IH. unfold grow_box_frames. cbn [fold_left].
    rewrite <- app_assoc. reflexivity.
Qed.

Lemma gif_wf_widths (img : gif_image) :
  gif_wf img ->
  Forall (fun fr => im_width (frame_rgba fr) <> 0) (img_frames img).
Proof.
  intros (Hw & _ & Hfr). eapply Forall_impl; [|exact Hfr].
  intros fr (E & _). cbv beta. lia.
Qed.

Lemma transparency_pass_ok (img : gif_image) :
  gif_wf img ->
  transparency_pass float_pow transparency_color fuzz_percentage img
  = Ok (pass_box float_pow transparency_color fuzz_percentage img,
        map (clear_frame float_pow transparency_color fuzz_percentage)
            (img_frames img)).
Proof.
  intros Hwf. unfold transparency_pass.
  rewrite (frame_loop_from _ (gif_wf_widths img Hwf)). reflexivity.
Qed.

End Pass.

(** ** The bounding box *)

Lemma grow_box_minmax (b : bbox) (x y : Z) :
  grow_box b (x, y)
  = {| min_x := Z.min x (min_x b); min_y := Z.min y (min_y b);
       max_x := Z.max x (max_x b); max_y := Z.max y (max_y b) |}.
Proof.
  unfold grow_box. f_equal.
  - destruct (Z.ltb_spec x (min_x b)); lia.
  - destruct (Z.ltb_spec y (min_y b)); lia.
  - destruct (Z.gtb_spec x (max_x b)); lia.
  - destruct (Z.gtb_spec y (max_y b)); lia.
Qed.

Lemma box_le_refl (b : bbox) : box_le b b.
Proof. unfold box_le. lia. Qed.

Lemma box_le_trans (a b c : bbox) : box_le a b -> box_le b c -> box_le a c.
Proof. unfold box_le. lia. Qed.

Lemma box_le_covers (b b' : bbox) (xy : Z * Z) :
  box_le b b' -> covers b xy -> covers b' xy.
Proof. unfold box_le, covers. lia. Qed.

Lemma grow_box_le (b : bbox) (xy : Z * Z) : box_le b (grow_box b xy).
Proof.
  destruct xy as [x y]. rewrite grow_box_minmax. unfold box_le. cbn. lia.
Qed.

Lemma grow_box_covers (b : bbox) (xy : Z * Z) : covers (grow_box b xy) xy.
Proof.
  destruct xy as [x y]. rewrite grow_box_minmax. unfold covers. cbn. lia.
Qed.

Lemma grow_box_within (width height : Z) (b : bbox) (xy : Z * Z) :
  box_within width height b ->
  0 <= fst xy < width -> 0 <= snd xy < height ->
  box_within width height (grow_box b xy).
Proof.
  destruct xy as [x y]. rewrite grow_box_minmax. unfold box_within. cbn. lia.
Qed.

Lemma grow_box_loop_le (pts : list (Z * Z)) (b : bbox) :
  box_le b (fold_left grow_box pts b).
Proof.
  revert b. induction pts as [|xy pts IH]; intros b; cbn [fold_left].
  - apply box_le_refl.
  - eapply box_le_trans; [apply grow_box_le|apply IH].
Qed.

Lemma grow_box_loop_covers (pts : list (Z * Z)) (b : bbox) (xy : Z * Z) :
  In xy pts -> covers (fold_left grow_box pts b) xy.
Proof.
  revert b. induction pts as [|p pts IH]; intros b Hin; [contradiction|].
  cbn [fold_left]. destruct Hin as [->|Hin].
  - eapply box_le_covers; [apply grow_box_loop_le|apply grow_box_covers].
  - apply IH, Hin.
Qed.

Lemma grow_box_loop_within (width height : Z) (pts : list (Z * Z)) (b : bbox) :
  box_within width height b ->
  Forall (fun xy => 0 <= fst xy < width /\ 0 <= snd xy < height) pts ->
  box_within width height (fold_left grow_box pts b).
Proof.
  intros Hb Hpts. revert b Hb.
  induction Hpts as [|xy pts [Hx Hy] _ IH]; intros b Hb; cbn [fold_left].
  - exact Hb.
  - apply IH, grow_box_within; assumption.
Qed.

Lemma box_empty_false (b : bbox) :
  box_empty b = false <-> min_x b <= max_x b /\ min_y b <= max_y b.
Proof.
  unfold box_empty. rewrite orb_false_iff.
  destruct (Z.gtb_spec (min_x b) (max_x b)),
           (Z.gtb_spec (min_y b) (max_y b));
    intuition (try lia; try congruence).
Qed.

Lemma box_empty_true (b : bbox) :
  box_empty b = true <-> min_x b > max_x b \/ min_y b > max_y b.
Proof.
  unfold box_empty. rewrite orb_true_iff.
  destruct (Z.gtb_spec (min_x b) (max_x b)),
           (Z.gtb_spec (min_y b) (max_y b));
    intuition (try lia; try congruence).
Qed.

Lemma covers_not_empty (b : bbox) (xy : Z * Z) :
  covers b xy -> box_empty b = false.
Proof. rewrite box_empty_false. unfold covers. lia. Qed.

Section PassBox.

Variable float_pow : float -> float -> float.
Variable transparency_color : color.
Variable fuzz_percentage : Z.

(** The recorded coordinates are those of the pixels that are not
    background. *)
Lemma kept_coords_In (width : Z) (datas : list pixel) (index : Z)
    (xy : Z * Z) :
  In xy (kept_coords float_pow transparency_color fuzz_percentage
                     width index datas)
  <-> exists i item,
        nth_error datas i = Some item
        /\ color_within_fuzz float_pow (rgb item) transparency_color
                             fuzz_percentage = false
        /\ xy = ((index + Z.of_nat i) mod width,
                 (index + Z.of_nat i) / width).
Proof.
  revert index. induction datas as [|item rest IH]; intros index.
  - cbn [kept_coords In]. split; [contradiction|].
    intros (i & it & Hi & _). destruct i; discriminate.
  - cbn [kept_coords].
    destruct (color_within_fuzz float_pow (rgb item) transparency_color
                                fuzz_percentage) eqn:E.
    + rewrite IH. split.
      * intros (i & it & Hi & Hc & ->). exists (S i), it.
        repeat split; auto. do 2 f_equal; lia.
      * intros (i & it & Hi & Hc & ->). destruct i as [|i].
        -- cbn in Hi. injection Hi as <-. congruence.
        -- exists i, it. repeat split; auto. do 2 f_equal; lia.
    + cbn [In]. rewrite IH. split.
      * intros [<-|(i & it & Hi & Hc & ->)].
        -- exists 0%nat, item. repeat split; auto. do 2 f_equal; lia.
        -- exists (S i), it. repeat split; auto. do 2 f_equal; lia.
      * intros (i & it & Hi & Hc & ->). destruct i as [|i].
        -- left. do 2 f_equal; lia.
        -- right. exists i, it. repeat split; auto. do 2 f_equal; lia.
Qed.

Lemma kept_coords_in_range (width height : Z) (datas : list pixel) :
  0 < width -> Z.of_nat (length datas) = width * height ->
  Forall (fun xy => 0 <= fst xy < width /\ 0 <= snd xy < height)
         (kept_coords float_pow transparency_color fuzz_percentage
                      width 0 datas).
Proof.
  intros Hw Hlen. apply Forall_forall. intros xy Hin.
  apply kept_coords_In in Hin as (i & item & Hi & _ & ->).
  assert (Hlt : (i < length datas)%nat)
    by (apply nth_error_Some; congruence).
  cbn [fst snd]. rewrite Z.add_0_l. split.
  - apply Z.mod_pos_bound, Hw.
  - split.
    + apply Z.div_pos; lia.
    + apply Z.div_lt_upper_bound; lia.
Qed.

Lemma kept_coords_all_background (width index : Z) (datas : list pixel) :
  (forall item, In item datas ->
     color_within_fuzz float_pow (rgb item) transparency_color
                       fuzz_percentage = true) ->
  kept_coords float_pow transparency_color fuzz_percentage width index datas
  = [].
Proof.
  revert index. induction datas as [|item rest IH]; intros index Hall.
  - reflexivity.
  - cbn [kept_coords]. rewrite (Hall item (or_introl eq_refl)).
    apply IH. intros it Hin. apply Hall. right. exact Hin.
Qed.

Lemma grow_box_frames_le (frames : list gif_frame) (b : bbox) :
  box_le b (grow_box_frames float_pow transparency_color fuzz_percentage
                            b frames).
Proof.
  unfold grow_box_frames. revert b.
  induction frames as [|fr frames IH]; intros b; cbn [fold_left].
  - apply box_le_refl.
  - eapply box_le_trans; [apply grow_box_loop_le|apply IH].
Qed.

Lemma grow_box_frames_within (width height : Z) (frames : list gif_frame)
    (b : bbox) :
  0 < width ->
  box_within width height b ->
  Forall (fun fr => im_width (frame_rgba fr) = width
                    /\ im_height (frame_rgba fr) = height
                    /\ Z.of_nat (length (im_data (frame_rgba fr)))
                       = width * height) frames ->
  box_within width height
    (grow_box_frames float_pow transparency_color fuzz_percentage b frames).
Proof.
  intros Hw Hb Hfr. unfold grow_box_frames. revert b Hb.
  induction Hfr as [|fr frames (Ew & Eh & Elen) _ IH]; intros b Hb;
    cbn [fold_left].
  - exact Hb.
  - apply IH, grow_box_loop_within; [exact Hb|].
    rewrite Ew. apply kept_coords_in_range; assumption.
Qed.

Lemma grow_box_frames_covers (frames : list gif_frame) (b : bbox)
    (fr : gif_frame) (xy : Z * Z) :
  In fr frames ->
  In xy (kept_coords float_pow transparency_color fuzz_percentage
                     (im_width (frame_rgba fr)) 0 (im_data (frame_rgba fr))) ->
  covers (grow_box_frames float_pow transparency_color fuzz_percentage
                          b frames) xy.
Proof.
  revert b. induction frames as [|f frames IH]; intros b Hfr Hxy;
    [contradiction|].
  change (grow_box_frames float_pow transparency_color fuzz_percentage
                          b (f :: frames))
    with (grow_box_frames float_pow transparency_color fuzz_percentage
            (fold_left grow_box
               (kept_coords float_pow transparency_color fuzz_percentage
                            (im_width (frame_rgba f)) 0
                            (im_data (frame_rgba f))) b)
            frames).
  destruct Hfr as [->|Hfr].
  - eapply box_le_covers; [apply grow_box_frames_le|].
    apply grow_box_loop_covers, Hxy.
  - apply IH; assumption.
Qed.

Lemma grow_box_frames_all_background (frames : list gif_frame) (b : bbox) :
  Forall (fun fr => forall item, In item (im_data (frame_rgba fr)) ->
            color_within_fuzz float_pow (rgb item) transparency_color
                              fuzz_percentage = true) frames ->
  grow_box_frames float_pow transparency_color fuzz_percentage b frames = b.
Proof.
  unfold grow_box_frames. induction 1 as [|fr frames Hall _ IH];
    cbn [fold_left]; [reflexivity|].
  rewrite (kept_coords_all_background _ _ _ Hall). exact IH.
Qed.

(** The box of a well-formed animation lies inside the canvas. *)
Lemma pass_box_within (img : gif_image) :
  gif_wf img ->
  box_within (img_width img) (img_height img)
    (pass_box float_pow transparency_color fuzz_percentage img).
Proof.
  intros (Hw & Hh & Hfr). unfold pass_box.
  apply grow_box_frames_within; [exact Hw| |exact Hfr].
  unfold box_within, initial_box. cbn. lia.
Qed.

(** A pixel that is not background lies in the box. *)
Lemma pass_box_covers (img : gif_image) (fr : gif_frame) (i : nat)
    (item : pixel) :
  In fr (img_frames img) ->
  nth_error (im_data (frame_rgba fr)) i = Some item ->
  color_within_fuzz float_pow (rgb item) transparency_color fuzz_percentage
  = false ->
  covers (pass_box float_pow transparency_color fuzz_percentage img)
         (Z.of_nat i mod im_width (frame_rgba fr),
          Z.of_nat i / im_width (frame_rgba fr)).
Proof.
  intros Hfr Hi Hc. unfold pass_box.
  apply (grow_box_frames_covers _ _ fr); [exact Hfr|].
  apply kept_coords_In. exists i, item. repeat split; auto.
Qed.

(** When every pixel of every frame is background, the box is still the
    initial one, which is empty. *)
Lemma pass_box_all_background (img : gif_image) :
  0 < img_width img ->
  Forall (fun fr => forall item, In item (im_data (frame_rgba fr)) ->
            color_within_fuzz float_pow (rgb item) transparency_color
                              fuzz_percentage = true) (img_frames img) ->
  box_empty (pass_box float_pow transparency_color fuzz_percentage img)
  = true.
Proof.
  intros Hw Hall. unfold pass_box.
  rewrite (grow_box_frames_all_background _ _ Hall).
  apply box_empty_true. unfold initial_box. cbn. lia.
Qed.

Lemma pass_box_frames_nonempty (img : gif_image) :
  0 < img_width img ->
  box_empty (pass_box float_pow transparency_color fuzz_percentage img)
  = false ->
  img_frames img <> [].
Proof.
  intros Hw Hne Hnil.
  rewrite (pass_box_all_background img Hw) in Hne; [discriminate|].
  rewrite Hnil. constructor.
Qed.

End PassBox.

(** ** Pointing transparent pixels at index 255 *)

Lemma list_set_length {A : Type} (l : list A) (i : nat) (v : A) :
  (i < length l)%nat -> length (list_set l i v) = length l.
Proof.
  intros Hi. unfold list_set.
  rewrite length_app, length_firstn. cbn [length]. rewrite length_skipn. lia.
Qed.

Lemma list_set_nth_error {A : Type} (l : list A) (i : nat) (v : A) (j : nat) :
  (i < length l)%nat ->
  nth_error (list_set l i v) j
  = if Nat.eqb j i then Some v else nth_error l j.
Proof.
  intros Hi. unfold list_set.
  assert (Hlen : length (firstn i l) = i) by (rewrite length_firstn; lia).
  destruct (Nat.eqb_spec j i) as [->|Hne].
  - rewrite nth_error_app2 by lia. rewrite Hlen, Nat.sub_diag. reflexivity.
  - destruct (Nat.lt_ge_cases j i) as [Hlt|Hge].
    + rewrite nth_error_app1 by lia. rewrite nth_error_firstn.
      destruct (Nat.ltb_spec j i); [reflexivity|lia].
    + rewrite nth_error_app2 by lia. rewrite Hlen.
      destruct (j - i)%nat as [|d] eqn:E; [lia|].
      cbn [nth_error]. rewrite nth_error_skipn. f_equal. lia.
Qed.

Lemma nth_error_combine {A B : Type} (l : list A) (l' : list B) (i : nat) :
  nth_error (combine l l') i
  = match nth_error l i, nth_error l' i with
    | Some a, Some b => Some (a, b)
    | _, _ => None
    end.
Proof.
  revert l' i. induction l as [|a l IH]; intros [|b l'] [|i]; cbn;
    try reflexivity.
  - destruct (nth_error l i); reflexivity.
  - apply IH.
Qed.

Lemma remapped_nth_error (frame_p_data : list Z) (pixels : list pixel)
    (i : nat) :
  nth_error (remapped frame_p_data pixels) i
  = match nth_error frame_p_data i, nth_error pixels i with
    | Some idx, Some px => Some (if alpha px =? 0 then 255 else idx)
    | _, _ => None
    end.
Proof.
  unfold remapped. rewrite nth_error_map, nth_error_combine.
  destruct (nth_error frame_p_data i), (nth_error pixels i); reflexivity.
Qed.

Lemma remapped_length (frame_p_data : list Z) (pixels : list pixel) :
  (length frame_p_data <= length pixels)%nat ->
  length (remapped frame_p_data pixels) = length frame_p_data.
Proof.
  intros H. unfold remapped. rewrite length_map, length_combine. lia.
Qed.

(** The remapping loop from position [k] on: the entries below [k] are
    final, the others still the quantiser's. *)
Lemma remap_loop_from (frame_p_data : list Z) (pixels : list pixel) :
  (length frame_p_data <= length pixels)%nat ->
  forall n k cur,
    (k + n = length frame_p_data)%nat ->
    length cur = length frame_p_data ->
    (forall j, nth_error cur j
               = if Nat.ltb j k
                 then nth_error (remapped frame_p_data pixels) j
                 else nth_error frame_p_data j) ->
    fold_left (remap_step pixels) (seq k n) (Ok cur)
    = Ok (remapped frame_p_data pixels).
Proof.
  intros Hlen. induction n as [|n IH]; intros k cur Hk Hcur Hinv.
  - cbn [seq fold_left]. f_equal. apply nth_error_ext. intros j.
    rewrite Hinv. destruct (Nat.ltb_spec j k) as [_|Hge]; [reflexivity|].
    transitivity (@None Z).
    + apply nth_error_None. lia.
    + symmetry. apply nth_error_None. rewrite remapped_length; lia.
  - cbn [seq fold_left]. unfold remap_step at 2. cbn [bind].
    destruct (nth_error pixels k) as [px|] eqn:Epx;
      [|apply nth_error_None in Epx; lia].
    destruct (nth_error frame_p_data k) as [idx|] eqn:Eidx;
      [|apply nth_error_None in Eidx; lia].
    assert (HR : nth_error (remapped frame_p_data pixels) k
                 = Some (if alpha px =? 0 then 255 else idx))
      by (rewrite remapped_nth_error, Eidx, Epx; reflexivity).
    destruct (alpha px =? 0) eqn:Ea.
    + apply IH.
      * lia.
      * rewrite list_set_length; lia.
      * intros j. rewrite list_set_nth_error by lia.
        destruct (Nat.eqb_spec j k) as [->|Hne].
        -- rewrite HR. destruct (Nat.ltb_spec k (S k)); [reflexivity|lia].
        -- rewrite Hinv.
           destruct (Nat.ltb_spec j k), (Nat.ltb_spec j (S k));
             try reflexivity; lia.
    + apply IH.
      * lia.
      * exact Hcur.
      * intros j. rewrite Hinv.
        destruct (Nat.ltb_spec j k), (Nat.ltb_spec j (S k));
          try reflexivity; try lia.
        assert (j = k) as -> by lia. rewrite HR, Eidx. reflexivity.
Qed.

Lemma remap_transparent_ok (frame_p_data : list Z) (pixels : list pixel) :
  (length frame_p_data <= length pixels)%nat ->
  remap_transparent frame_p_data pixels
  = Ok (remapped frame_p_data pixels).
Proof.
  intros Hlen. unfold remap_transparent.
  apply (remap_loop_from _ _ Hlen); [lia|reflexivity|].
  intros j. destruct (Nat.ltb_spec j 0); [lia|reflexivity].
Qed.

(** Without a pixel for some index the loop raises. *)
Example remap_transparent_short :
  remap_transparent [1; 2] [(0, 0, 0, 0)] = Raise IndexError.
Proof. reflexivity. Qed.

(** ** Cropping, palette and the [save] call *)

Lemma Forall2_map_right {A B : Type} (R : A -> B -> Prop) (f : A -> B)
    (l : list A) :
  (forall a, In a l -> R a (f a)) -> Forall2 R l (map f l).
Proof.
  induction l as [|a l IH]; intros H; cbn [map]; constructor.
  - apply H. left. reflexivity.
  - apply IH. intros b Hb. apply H. right. exact Hb.
Qed.

Section Crop.

Variable float_pow : float -> float -> float.
Variable quantize : rgba_image -> indexed_image.
Variable transparency_color : color.
Variable fuzz_percentage : Z.

Hypothesis quantize_size : quantize_keeps_size quantize.

Lemma index_frame_ok (b : bbox) (frame_rgba : rgba_image) :
  index_frame quantize transparency_color b frame_rgba
  = Ok (indexed_frame quantize transparency_color b frame_rgba).
Proof.
  unfold index_frame, indexed_frame. cbv zeta.
  rewrite remap_transparent_ok; [reflexivity|].
  destruct (quantize_size (crop_to_box b frame_rgba)) as (_ & _ & ->).
  apply Nat.le_refl.
Qed.

(** The second loop, started from any state. *)
Lemma crop_loop_from (b : bbox) (temp_frames : list (rgba_image * Z)) :
  forall processed_frames processed_durations,
    fold_left (crop_step quantize transparency_color b) temp_frames
              (Ok (processed_frames, processed_durations))
    = Ok (processed_frames
          ++ map (fun entry =>
                    indexed_frame quantize transparency_color b (fst entry))
                 temp_frames,
          processed_durations ++ map snd temp_frames).
Proof.
  induction temp_frames as [|[fr d] rest IH]; intros pf pd.
  - cbn. rewrite !app_nil_r. reflexivity.
  - cbn [fold_left map fst snd]. unfold crop_step at 2. cbn [bind].
    rewrite index_frame_ok. cbn [bind]. rewrite IH, <- !app_assoc.
    reflexivity.
Qed.

Lemma crop_and_save_ok (b : bbox) (entry : rgba_image * Z)
    (rest : list (rgba_image * Z)) :
  crop_and_save quantize transparency_color b (entry :: rest)
  = Ok {| save_first :=
            indexed_frame quantize transparency_color b (fst entry);
          save_append_images :=
            map (fun e => indexed_frame quantize transparency_color b (fst e))
                rest;
          save_duration := map snd (entry :: rest);
          save_loop := 0;
          save_transparency := 255;
          save_disposal := 2 |}.
Proof.
  unfold crop_and_save. rewrite crop_loop_from. reflexivity.
Qed.

(** A well-formed animation with a pixel left is saved: every frame is
    cleared, cropped to the box of the pass and indexed, and the durations go
    to the encoder as read. *)
Lemma process_gif_saved (img : gif_image) :
  gif_wf img ->
  box_empty (pass_box float_pow transparency_color fuzz_percentage img)
  = false ->
  exists call,
    process_gif float_pow quantize (Some img) (Some transparency_color)
                fuzz_percentage = Saved call
    /\ saved_frames call
       = map (fun fr =>
                indexed_frame quantize transparency_color
                  (pass_box float_pow transparency_color fuzz_percentage img)
                  (fst (clear_frame float_pow transparency_color
                                    fuzz_percentage fr)))
             (img_frames img)
    /\ save_duration call = map duration_of (img_frames img)
    /\ save_loop call = 0 /\ save_transparency call = 255
    /\ save_disposal call = 2.
Proof.
  intros Hwf Hbox. unfold process_gif.
  rewrite (transparency_pass_ok _ _ _ img Hwf), Hbox.
  pose proof (pass_box_frames_nonempty _ _ _ img (proj1 Hwf) Hbox) as Hne.
  destruct (img_frames img) as [|fr frames]; [contradiction|].
  cbn [map]. rewrite crop_and_save_ok.
  eexists. split; [reflexivity|].
  unfold saved_frames. cbn [save_first save_append_images save_duration
                            save_loop save_transparency save_disposal
                            map fst snd clear_frame].
  rewrite !map_map. cbn [fst snd clear_frame]. repeat split.
Qed.

End Crop.

(** ** The claims on [process_gif] *)

(** C2: when the box left by the transparency pass has [min_x > max_x] or
    [min_y > max_y], [process_gif] ends with the no-content message, before
    any frame is cropped or encoded: no [save] call is made. *)
Theorem empty_box_no_content (float_pow : float -> float -> float)
    (quantize : rgba_image -> indexed_image) (img : gif_image)
    (transparency_color : color) (fuzz_percentage : Z)
    (box : bbox) (temp_frames : list (rgba_image * Z)) :
  transparency_pass float_pow transparency_color fuzz_percentage img
  = Ok (box, temp_frames) ->
  min_x box > max_x box \/ min_y box > max_y box ->
  process_gif float_pow quantize (Some img) (Some transparency_color)
              fuzz_percentage = NoContent.
Proof.
  intros Hpass Hbox. unfold process_gif. rewrite Hpass.
  apply box_empty_true in Hbox. rewrite Hbox. reflexivity.
Qed.

(** The all-background input of the specification: one solid 10 by 10
    frame, its own colour selected, fuzz 0. *)
Lemma empty_box_no_content_witness :
  process_gif sqrt_pow flat_quantize (Some solid_10x10) (Some (7, 7, 7)) 0
  = NoContent.
Proof.
  eapply (empty_box_no_content sqrt_pow flat_quantize solid_10x10 (7, 7, 7) 0).
  - vm_compute. reflexivity.
  - left. vm_compute. reflexivity.
Defined.

(** Whenever every pixel of every frame is background, the run ends with
    the no-content message. *)
Lemma all_background_no_content (float_pow : float -> float -> float)
    (quantize : rgba_image -> indexed_image) (img : gif_image)
    (transparency_color : color) (fuzz_percentage : Z) :
  gif_wf img ->
  Forall (fun fr => forall item, In item (im_data (frame_rgba fr)) ->
            color_within_fuzz float_pow (rgb item) transparency_color
                              fuzz_percentage = true) (img_frames img) ->
  process_gif float_pow quantize (Some img) (Some transparency_color)
              fuzz_percentage = NoContent.
Proof.
  intros Hwf Hall. unfold process_gif.
  rewrite (transparency_pass_ok _ _ _ img Hwf).
  rewrite (pass_box_all_background _ _ _ img (proj1 Hwf) Hall). reflexivity.
Qed.

(** A pixel that is not background keeps the box from being empty. *)
Lemma kept_pixel_box_not_empty (float_pow : float -> float -> float)
    (img : gif_image) (transparency_color : color) (fuzz_percentage : Z)
    (fr : gif_frame) (i : nat) (item : pixel) :
  In fr (img_frames img) ->
  nth_error (im_data (frame_rgba fr)) i = Some item ->
  color_within_fuzz float_pow (rgb item) transparency_color fuzz_percentage
  = false ->
  box_empty (pass_box float_pow transparency_color fuzz_percentage img)
  = false.
Proof.
  intros Hfr Hi Hc. eapply covers_not_empty.
  apply (pass_box_covers _ _ _ img fr i item Hfr Hi Hc).
Qed.

(** C6: the transparency pass gives, for every frame, an RGBA frame of the
    same size in which each background pixel is [(0, 0, 0, 0)] and every other
    pixel is the source pixel, alpha included. *)
Theorem transparency_pass_clears (float_pow : float -> float -> float)
    (img : gif_image) (transparency_color : color) (fuzz_percentage : Z) :
  gif_wf img ->
  exists box temp_frames,
    transparency_pass float_pow transparency_color fuzz_percentage img
    = Ok (box, temp_frames)
    /\ Forall2
         (fun fr out =>
            im_width (fst out) = im_width (frame_rgba fr)
            /\ im_height (fst out) = im_height (frame_rgba fr)
            /\ im_data (fst out)
               = map (fun item =>
                        if color_within_fuzz float_pow (rgb item)
                             transparency_color fuzz_percentage
                        then (0, 0, 0, 0) else item)
                     (im_data (frame_rgba fr)))
         (img_frames img) temp_frames.
Proof.
  intros Hwf. eexists. eexists. split.
  - apply (transparency_pass_ok _ _ _ img Hwf).
  - apply Forall2_map_right. intros fr _. repeat split.
Qed.

Lemma transparency_pass_clears_witness :
  exists box temp_frames,
    transparency_pass sqrt_pow (255, 255, 255) 0 block_4x4
    = Ok (box, temp_frames)
    /\ Forall2
         (fun fr out =>
            im_width (fst out) = im_width (frame_rgba fr)
            /\ im_height (fst out) = im_height (frame_rgba fr)
            /\ im_data (fst out)
               = map (fun item =>
                        if color_within_fuzz sqrt_pow (rgb item)
                             (255, 255, 255) 0
                        then (0, 0, 0, 0) else item)
                     (im_data (frame_rgba fr)))
         (img_frames block_4x4) temp_frames.
Proof.
  apply (transparency_pass_clears sqrt_pow block_4x4 (255, 255, 255) 0).
  unfold gif_wf. cbn. repeat constructor.
Defined.

(** Slice assignment inside the list: the prefix stays and the new values
    follow it. *)
Lemma slice_assign_inside {A : Type} (l : list A) (i j : nat) (v : list A) :
  (i <= length l)%nat ->
  firstn i (slice_assign l i j v) = firstn i l
  /\ firstn (length v) (skipn i (slice_assign l i j v)) = v.
Proof.
  intros Hi. unfold slice_assign.
  assert (Hlen : length (firstn i l) = i) by (rewrite length_firstn; lia).
  split.
  - rewrite firstn_app, Hlen, Nat.sub_diag. cbn [firstn].
    rewrite app_nil_r. apply firstn_all2. lia.
  - rewrite skipn_app, Hlen, Nat.sub_diag. cbn [skipn].
    rewrite skipn_all2 by lia. cbn [app].
    rewrite firstn_app, Nat.sub_diag. cbn [firstn].
    rewrite app_nil_r. apply firstn_all.
Qed.

Lemma reserve_palette_entry (c : color) (palette : list Z) :
  (765 <= length palette)%nat ->
  firstn 765 (reserve_palette c palette) = firstn 765 palette
  /\ firstn 3 (skipn 765 (reserve_palette c palette))
     = [chan0 c; chan1 c; chan2 c].
Proof.
  intros Hlen. unfold reserve_palette.
  change (255 * 3)%nat with 765%nat.
  apply (slice_assign_inside palette 765 (765 + 3)
           [chan0 c; chan1 c; chan2 c] Hlen).
Qed.

(** When the quantiser's palette is shorter than 765 values the assignment
    appends: the colour does not land on entry 255. *)
Example reserve_palette_short :
  reserve_palette (9, 8, 7) [1; 2; 3; 4; 5; 6] = [1; 2; 3; 4; 5; 6; 9; 8; 7].
Proof. reflexivity. Qed.

Lemma zrange_length (lo : Z) (n : nat) : length (zrange lo n) = n.
Proof.
  revert lo. induction n as [|n IH]; intros lo; cbn [zrange length];
    [reflexivity|]. rewrite IH. reflexivity.
Qed.

(** A crop holds one pixel per position of its rectangle. *)
Lemma crop_data_length (im : rgba_image) (left upper right lower : Z) :
  left <= right -> upper <= lower ->
  Z.of_nat (length (im_data (crop im left upper right lower)))
  = im_width (crop im left upper right lower)
    * im_height (crop im left upper right lower).
Proof.
  intros Hx Hy. cbn [crop im_data im_width im_height].
  rewrite flat_map_constant_length with (c := Z.to_nat (right - left)).
  - rewrite zrange_length, Nat2Z.inj_mul, !Z2Nat.id by lia. ring.
  - intros y _. rewrite length_map. apply zrange_length.
Qed.

Lemma zrange_nth_error (lo : Z) (n k : nat) :
  (k < n)%nat -> nth_error (zrange lo n) k = Some (lo + Z.of_nat k).
Proof.
  revert lo k. induction n as [|n IH]; intros lo k Hk; [lia|].
  destruct k as [|k]; cbn [zrange nth_error].
  - f_equal. lia.
  - rewrite IH by lia. f_equal. lia.
Qed.

(** Position [j * c + i] of a concatenation of rows of length [c] is
    position [i] of row [j]. *)
Lemma flat_map_nth_error {A B : Type} (f : A -> list B) (c : nat)
    (rows : list A) :
  (forall a, length (f a) = c) ->
  forall j i a, (i < c)%nat -> nth_error rows j = Some a ->
    nth_error (flat_map f rows) (j * c + i) = nth_error (f a) i.
Proof.
  intros Hlen. induction rows as [|r rows IH]; intros j i a Hi Hj.
  - destruct j; discriminate.
  - cbn [flat_map]. destruct j as [|j].
    + cbn in Hj. injection Hj as ->. cbn [Nat.mul Nat.add].
      apply nth_error_app1. rewrite Hlen. exact Hi.
    + cbn in Hj. rewrite nth_error_app2 by (rewrite Hlen; cbn; lia).
      rewrite Hlen. replace (S j * c + i - c)%nat with (j * c + i)%nat
        by (cbn; lia).
      apply IH; assumption.
Qed.

(** The pixel at column [i], row [j] of a crop is the source pixel at
    [(left + i, upper + j)]. *)
Lemma crop_nth_error (im : rgba_image) (left upper right lower i j : Z) :
  0 <= i < right - left -> 0 <= j < lower - upper ->
  nth_error (im_data (crop im left upper right lower))
            (Z.to_nat (j * (right - left) + i))
  = Some (getpixel im (left + i) (upper + j)).
Proof.
  intros Hi Hj. cbn [crop im_data].
  replace (Z.to_nat (j * (right - left) + i))
    with (Z.to_nat j * Z.to_nat (right - left) + Z.to_nat i)%nat by nia.
  rewrite (flat_map_nth_error _ (Z.to_nat (right - left)) _
             (fun y => eq_trans (length_map _ _) (zrange_length _ _))
             (Z.to_nat j) (Z.to_nat i) (upper + j)).
  - rewrite nth_error_map, zrange_nth_error by lia. cbn [option_map].
    do 2 f_equal. lia.
  - lia.
  - rewrite zrange_nth_error by lia. f_equal. lia.
Qed.

Lemma getpixel_inside (im : rgba_image) (x y : Z) (item : pixel) :
  0 <= x < im_width im -> 0 <= y < im_height im ->
  nth_error (im_data im) (Z.to_nat (y * im_width im + x)) = Some item ->
  getpixel im x y = item.
Proof.
  intros Hx Hy Hitem. unfold getpixel.
  replace ((0 <=? x) && (x <? im_width im) && (0 <=? y)
           && (y <? im_height im)) with true.
  - apply nth_error_nth, Hitem.
  - symmetry. rewrite !andb_true_iff, !Z.leb_le, !Z.ltb_lt. lia.
Qed.

(** *** The example animation and quantiser satisfy the assumptions *)

Lemma block_4x4_wf : gif_wf block_4x4.
Proof. unfold gif_wf. cbn. repeat constructor. Qed.

Lemma flat_quantize_keeps_size : quantize_keeps_size flat_quantize.
Proof.
  intros im. unfold flat_quantize. cbn. rewrite length_map. repeat split.
Qed.

Lemma flat_quantize_palette : quantize_palette_reaches_255 flat_quantize.
Proof.
  intros im. unfold flat_quantize. cbn [p_palette].
  rewrite repeat_length. apply Nat.leb_le. vm_compute. reflexivity.
Qed.

Lemma block_4x4_box :
  pass_box sqrt_pow (255, 255, 255) 0 block_4x4
  = {| min_x := 1; min_y := 2; max_x := 2; max_y := 3 |}.
Proof. vm_compute. reflexivity. Qed.

(** *** Durations *)

Lemma combine_map_same {A B C : Type} (f : A -> B) (g : A -> C)
    (l : list A) :
  combine (map f l) (map g l) = map (fun a => (f a, g a)) l.
Proof.
  induction l as [|a l IH]; cbn [map combine]; [reflexivity|].
  rewrite IH. reflexivity.
Qed.

(** When every frame differs from the one before it, the writer keeps all
    of them. *)
Lemma write_frames_all_differ
    (frames_differ : indexed_image -> indexed_image -> bool)
    (rest : list (indexed_image * Z)) :
  forall previous_im previous_duration,
    differ_from frames_differ previous_im (map fst rest) = true ->
    write_frames frames_differ previous_im previous_duration rest
    = (previous_im, previous_duration) :: rest.
Proof.
  induction rest as [|[im_frame duration] rest IH];
    intros previous_im previous_duration Hd; [reflexivity|].
  cbn [map fst differ_from] in Hd. apply andb_true_iff in Hd.
  destruct Hd as [Hd Hrest].
  cbn [write_frames]. rewrite Hd, (IH _ _ Hrest). reflexivity.
Qed.

(** A frame that does not differ from the one before it is not written, and
    the frame before it is shown for both durations. *)
Lemma write_frames_merge
    (frames_differ : indexed_image -> indexed_image -> bool)
    (previous_im im_frame : indexed_image) (previous_duration duration : Z)
    (rest : list (indexed_image * Z)) :
  frames_differ previous_im im_frame = false ->
  write_frames frames_differ previous_im previous_duration
               ((im_frame, duration) :: rest)
  = write_frames frames_differ previous_im (previous_duration + duration)
                 rest.
Proof. intros Hd. cbn [write_frames]. rewrite Hd. reflexivity. Qed.

(** The example test finds no difference between a frame and itself. *)
Lemma indexed_differ_same (im_frame : indexed_image) :
  indexed_differ im_frame im_frame = false.
Proof.
  unfold indexed_differ. rewrite !Z.eqb_refl.
  destruct (list_eq_dec Z.eq_dec (p_palette im_frame) (p_palette im_frame));
    [|congruence].
  destruct (list_eq_dec Z.eq_dec (p_data im_frame) (p_data im_frame));
    [reflexivity|congruence].
Qed.

(** A duration that is not a whole number of hundredths of a second is cut
    down by the file format. *)
Example file_duration_rounds : file_duration 45 = 40.
Proof. reflexivity. Qed.

Lemma file_duration_gif (durations : list Z) :
  Forall gif_duration durations ->
  map file_duration durations = durations.
Proof.
  induction 1 as [|d l [_ Hd] _ IH]; cbn [map]; [reflexivity|].
  rewrite IH. f_equal. unfold file_duration.
  rewrite (Z.div_mod d 10) at 2 by lia. lia.
Qed.

(** C7 as stated fails on two equal frames shown for 40 ms and 60 ms: [save]
    is called with the durations [[40, 60]], and the written animation has a
    single frame of 100 ms, whatever the writer's test for a difference is,
    as long as it finds none between a frame and itself. *)
Lemma twins_durations_merged :
  exists call,
    process_gif sqrt_pow flat_quantize (Some twins) (Some (255, 255, 255)) 0
    = Saved call
    /\ map (fun fr => match frame_duration fr with
                      | Some d => d
                      | None => 100
                      end) (img_frames twins) = [40; 60]
    /\ save_duration call = [40; 60]
    /\ forall frames_differ,
         (forall im_frame, frames_differ im_frame im_frame = false) ->
         written_durations frames_differ call = [100]
         /\ written_durations frames_differ call
            <> map (fun fr => match frame_duration fr with
                              | Some d => d
                              | None => 100
                              end) (img_frames twins).
Proof.
  eexists. split; [vm_compute; reflexivity|].
  split; [reflexivity|]. split; [reflexivity|].
  intros frames_differ Hrefl.
  match goal with
  | |- ?written = _ /\ _ => assert (E : written = [100])
  end.
  { unfold written_durations, written_frames, saved_frames.
    cbn [save_first save_append_images save_duration combine].
    rewrite write_frames_merge by apply Hrefl. reflexivity. }
  split; [exact E|].
  rewrite E. intros H. discriminate H.
Qed.

(** C7, amended: [save] is called with the durations of the input frames,
    one per frame and in order, with 100 ms for a frame that carries none;
    and when the input durations are durations a GIF holds and every output
    frame differs from the one before it, the per-frame durations of the
    written animation are those durations, element for element. *)
Theorem durations_preserved (float_pow : float -> float -> float)
    (quantize : rgba_image -> indexed_image)
    (frames_differ : indexed_image -> indexed_image -> bool)
    (img : gif_image) (transparency_color : color) (fuzz_percentage : Z) :
  gif_wf img ->
  quantize_keeps_size quantize ->
  box_empty (pass_box float_pow transparency_color fuzz_percentage img)
  = false ->
  exists call,
    process_gif float_pow quantize (Some img) (Some transparency_color)
                fuzz_percentage = Saved call
    /\ length (saved_frames call) = length (img_frames img)
    /\ save_duration call
       = map (fun fr => match frame_duration fr with
                        | Some d => d
                        | None => 100
                        end)
             (img_frames img)
    /\ (Forall (fun fr => gif_duration (match frame_duration fr with
                                         | Some d => d
                                         | None => 100
                                         end))
               (img_frames img) ->
        consecutive_differ frames_differ (saved_frames call) = true ->
        written_durations frames_differ call
        = map (fun fr => match frame_duration fr with
                         | Some d => d
                         | None => 100
                         end)
              (img_frames img)).
Proof.
  intros Hwf Hq Hbox.
  destruct (process_gif_saved float_pow quantize transparency_color
              fuzz_percentage Hq img Hwf Hbox)
    as (call & Hrun & Hframes & Hdur & _).
  exists call. split; [exact Hrun|]. split.
  { rewrite Hframes. apply length_map. }
  split; [exact Hdur|].
  intros Hgif Hdiffer.
  change (written_durations frames_differ call
          = map duration_of (img_frames img)).
  unfold written_durations, written_frames.
  rewrite Hframes in Hdiffer |- *. rewrite Hdur, combine_map_same.
  destruct (img_frames img) as [|fr frames]; [reflexivity|].
  cbn [map consecutive_differ] in Hdiffer |- *.
  rewrite write_frames_all_differ
    by (rewrite map_map; cbn [fst]; exact Hdiffer).
  transitivity (map file_duration (map duration_of (fr :: frames))).
  - cbn [map snd]. rewrite !map_map. reflexivity.
  - apply file_duration_gif, Forall_forall. intros d Hd.
    change (In d (map duration_of (fr :: frames))) in Hd.
    apply in_map_iff in Hd. destruct Hd as (fr' & <- & Hin).
    rewrite Forall_forall in Hgif. exact (Hgif fr' Hin).
Qed.

Lemma durations_preserved_witness :
  exists call,
    process_gif sqrt_pow flat_quantize (Some block_4x4)
                (Some (255, 255, 255)) 0 = Saved call
    /\ length (saved_frames call) = length (img_frames block_4x4)
    /\ save_duration call
       = map (fun fr => match frame_duration fr with
                        | Some d => d
                        | None => 100
                        end)
             (img_frames block_4x4)
    /\ Forall (fun fr => gif_duration (match frame_duration fr with
                                        | Some d => d
                                        | None => 100
                                        end))
               (img_frames block_4x4)
    /\ consecutive_differ indexed_differ (saved_frames call) = true
    /\ written_durations indexed_differ call
       = map (fun fr => match frame_duration fr with
                        | Some d => d
                        | None => 100
                        end)
             (img_frames block_4x4).
Proof.
  destruct (durations_preserved sqrt_pow flat_quantize indexed_differ
              block_4x4 (255, 255, 255) 0 block_4x4_wf
              flat_quantize_keeps_size)
    as (call & Hrun & Hlen & Hdur & Hwritten).
  - vm_compute. reflexivity.
  - assert (Hgif : Forall (fun fr => gif_duration
                                       (match frame_duration fr with
                                        | Some d => d
                                        | None => 100
                                        end))
                          (img_frames block_4x4))
      by (repeat constructor; cbn; lia).
    assert (Hdiffer : consecutive_differ indexed_differ (saved_frames call)
                      = true).
    { revert Hrun. vm_compute. intros Hrun. injection Hrun as <-.
      reflexivity. }
    exists call.
    exact (conj Hrun (conj Hlen (conj Hdur (conj Hgif (conj Hdiffer
             (Hwritten Hgif Hdiffer)))))).
Defined.

(** With the example test the two equal frames are written as one frame of
    100 ms. *)
Example twins_written :
  exists call,
    process_gif sqrt_pow flat_quantize (Some twins) (Some (255, 255, 255)) 0
    = Saved call
    /\ length (saved_frames call) = 2%nat
    /\ written_durations indexed_differ call = [100].
Proof. eexists. repeat split; vm_compute; reflexivity. Qed.

(** The 4 by 4 example meets both conditions on the writer: its durations
    are 40 ms and 100 ms, its two output frames differ, and the written
    animation has the two durations. *)
Example block_4x4_durations :
  exists call,
    process_gif sqrt_pow flat_quantize (Some block_4x4)
                (Some (255, 255, 255)) 0 = Saved call
    /\ save_duration call = [40; 100]
    /\ Forall (fun fr => gif_duration (match frame_duration fr with
                                       | Some d => d
                                       | None => 100
                                       end))
              (img_frames block_4x4)
    /\ consecutive_differ indexed_differ (saved_frames call) = true
    /\ written_durations indexed_differ call = [40; 100].
Proof.
  eexists. split; [vm_compute; reflexivity|].
  split; [reflexivity|]. split.
  - repeat constructor; cbn; lia.
  - split; vm_compute; reflexivity.
Qed.

(** C8: in every output frame, palette entry 255 is the selected colour
    whatever the quantiser put in the other entries, a pixel whose alpha in
    the cropped frame is 0 has index 255 and every other pixel keeps the
    quantiser's index, and index 255 is the transparent index of the frame and
    of the [save] call. *)
Theorem palette_index_255 (float_pow : float -> float -> float)
    (quantize : rgba_image -> indexed_image) (img : gif_image)
    (transparency_color : color) (fuzz_percentage : Z) :
  gif_wf img ->
  quantize_keeps_size quantize ->
  quantize_palette_reaches_255 quantize ->
  box_empty (pass_box float_pow transparency_color fuzz_percentage img)
  = false ->
  exists call,
    process_gif float_pow quantize (Some img) (Some transparency_color)
                fuzz_percentage = Saved call
    /\ save_transparency call = 255
    /\ Forall2
         (fun fr out =>
            exists cropped_frame,
              cropped_frame
              = crop_to_box
                  (pass_box float_pow transparency_color fuzz_percentage img)
                  (fst (clear_frame float_pow transparency_color
                                    fuzz_percentage fr))
              /\ firstn 3 (skipn 765 (p_palette out))
                 = [chan0 transparency_color; chan1 transparency_color;
                    chan2 transparency_color]
              /\ firstn 765 (p_palette out)
                 = firstn 765 (p_palette (quantize cropped_frame))
              /\ p_transparency out = Some 255
              /\ length (p_data out) = length (im_data cropped_frame)
              /\ forall i px idx,
                   nth_error (im_data cropped_frame) i = Some px ->
                   nth_error (p_data (quantize cropped_frame)) i = Some idx ->
                   nth_error (p_data out) i
                   = Some (if alpha px =? 0 then 255 else idx))
         (img_frames img) (saved_frames call).
Proof.
  intros Hwf Hq Hpal Hbox.
  destruct (process_gif_saved float_pow quantize transparency_color
              fuzz_percentage Hq img Hwf Hbox)
    as (call & Hrun & Hframes & _ & _ & Htr & _).
  exists call. split; [exact Hrun|]. split; [exact Htr|].
  rewrite Hframes. apply Forall2_map_right. intros fr _.
  eexists. split; [reflexivity|].
  set (cropped := crop_to_box _ _).
  unfold indexed_frame. cbv zeta. fold cropped.
  cbn [p_palette p_transparency p_data].
  destruct (reserve_palette_entry transparency_color
              (p_palette (quantize cropped)) (Hpal cropped)) as [Hpre Hent].
  destruct (Hq cropped) as (_ & _ & Hlen).
  repeat split.
  - exact Hent.
  - exact Hpre.
  - rewrite remapped_length; lia.
  - intros i px idx Hpx Hidx. rewrite remapped_nth_error, Hidx, Hpx.
    reflexivity.
Qed.

Lemma palette_index_255_witness :
  exists call,
    process_gif sqrt_pow flat_quantize (Some block_4x4)
                (Some (255, 255, 255)) 0 = Saved call
    /\ save_transparency call = 255
    /\ Forall2
         (fun fr out =>
            exists cropped_frame,
              cropped_frame
              = crop_to_box
                  (pass_box sqrt_pow (255, 255, 255) 0 block_4x4)
                  (fst (clear_frame sqrt_pow (255, 255, 255) 0 fr))
              /\ firstn 3 (skipn 765 (p_palette out))
                 = [chan0 (255, 255, 255); chan1 (255, 255, 255);
                    chan2 (255, 255, 255)]
              /\ firstn 765 (p_palette out)
                 = firstn 765 (p_palette (flat_quantize cropped_frame))
              /\ p_transparency out = Some 255
              /\ length (p_data out) = length (im_data cropped_frame)
              /\ forall i px idx,
                   nth_error (im_data cropped_frame) i = Some px ->
                   nth_error (p_data (flat_quantize cropped_frame)) i
                   = Some idx ->
                   nth_error (p_data out) i
                   = Some (if alpha px =? 0 then 255 else idx))
         (img_frames block_4x4) (saved_frames call).
Proof.
  apply (palette_index_255 sqrt_pow flat_quantize block_4x4
           (255, 255, 255) 0).
  - exact block_4x4_wf.
  - exact flat_quantize_keeps_size.
  - exact flat_quantize_palette.
  - vm_compute. reflexivity.
Defined.

(** The mixed input of the specification: the box is the 2 by 2 block; the
    second, all-background frame is cropped to the same rectangle and
    consists of index 255 only. *)
Example block_4x4_saved :
  exists call,
    process_gif sqrt_pow flat_quantize (Some block_4x4)
                (Some (255, 255, 255)) 0 = Saved call
    /\ map p_data (saved_frames call) = [[0; 0; 0; 0]; [255; 255; 255; 255]]
    /\ map p_width (saved_frames call) = [2; 2]
    /\ map p_height (saved_frames call) = [2; 2].
Proof. eexists. repeat split; vm_compute; reflexivity. Qed.

(** C9: with a non-empty box every frame is cropped to the one rectangle
    [(min_x, min_y, max_x + 1, max_y + 1)]: the pixel at column [i], row [j]
    of every cropped frame is the pixel of the transparency pass at column
    [min_x + i], row [min_y + j] of the source frame, the output frame is
    computed from that cropped frame, and the width and height of every
    cropped frame are positive and at most those of the source frame; the
    clamp of [new_width] and [new_height] changes nothing. *)
Theorem frames_cropped_to_box (float_pow : float -> float -> float)
    (quantize : rgba_image -> indexed_image) (img : gif_image)
    (transparency_color : color) (fuzz_percentage : Z) :
  gif_wf img ->
  quantize_keeps_size quantize ->
  box_empty (pass_box float_pow transparency_color fuzz_percentage img)
  = false ->
  exists call box,
    process_gif float_pow quantize (Some img) (Some transparency_color)
                fuzz_percentage = Saved call
    /\ box = pass_box float_pow transparency_color fuzz_percentage img
    /\ new_width img box = max_x box + 1 - min_x box
    /\ new_height img box = max_y box + 1 - min_y box
    /\ Forall2
         (fun fr out =>
            exists cropped_frame,
              cropped_frame
              = crop (fst (clear_frame float_pow transparency_color
                                       fuzz_percentage fr))
                     (min_x box) (min_y box) (max_x box + 1) (max_y box + 1)
              /\ index_frame quantize transparency_color box
                   (fst (clear_frame float_pow transparency_color
                                     fuzz_percentage fr)) = Ok out
              /\ p_width out = im_width cropped_frame
              /\ p_height out = im_height cropped_frame
              /\ p_palette out
                 = slice_assign (p_palette (quantize cropped_frame))
                     765 768
                     [chan0 transparency_color; chan1 transparency_color;
                      chan2 transparency_color]
              /\ p_data out
                 = map (fun entry => if alpha (snd entry) =? 0 then 255
                                     else fst entry)
                       (combine (p_data (quantize cropped_frame))
                                (im_data cropped_frame))
              /\ im_width cropped_frame = max_x box + 1 - min_x box
              /\ im_height cropped_frame = max_y box + 1 - min_y box
              /\ Z.of_nat (length (im_data cropped_frame))
                 = im_width cropped_frame * im_height cropped_frame
              /\ 0 < im_width cropped_frame <= im_width (frame_rgba fr)
              /\ 0 < im_height cropped_frame <= im_height (frame_rgba fr)
              /\ forall i j,
                   0 <= i < im_width cropped_frame ->
                   0 <= j < im_height cropped_frame ->
                   exists item,
                     nth_error (im_data (frame_rgba fr))
                       (Z.to_nat ((min_y box + j) * im_width (frame_rgba fr)
                                  + (min_x box + i)))
                     = Some item
                     /\ nth_error (im_data cropped_frame)
                          (Z.to_nat (j * im_width cropped_frame + i))
                        = Some (if color_within_fuzz float_pow (rgb item)
                                     transparency_color fuzz_percentage
                                then (0, 0, 0, 0) else item))
         (img_frames img) (saved_frames call).
Proof.
  intros Hwf Hq Hbox.
  destruct (process_gif_saved float_pow quantize transparency_color
              fuzz_percentage Hq img Hwf Hbox)
    as (call & Hrun & Hframes & _).
  exists call. eexists. split; [exact Hrun|]. split; [reflexivity|].
  pose proof (pass_box_within float_pow transparency_color fuzz_percentage
                img Hwf) as Hin.
  apply box_empty_false in Hbox.
  set (box := pass_box float_pow transparency_color fuzz_percentage img) in *.
  unfold box_within in Hin.
  split; [unfold new_width; lia|]. split; [unfold new_height; lia|].
  rewrite Hframes. apply Forall2_map_right. intros fr Hfr.
  destruct Hwf as (Hw & Hh & Hall). rewrite Forall_forall in Hall.
  destruct (Hall fr Hfr) as (Ew & Eh & Elen).
  set (cleared := fst (clear_frame float_pow transparency_color
                                   fuzz_percentage fr)).
  exists (crop cleared (min_x box) (min_y box) (max_x box + 1)
               (max_y box + 1)).
  split; [reflexivity|].
  split; [apply (index_frame_ok quantize transparency_color Hq)|].
  unfold indexed_frame. cbv zeta.
  cbn [p_width p_height p_palette p_data].
  change (crop_to_box box cleared)
    with (crop cleared (min_x box) (min_y box) (max_x box + 1)
               (max_y box + 1)).
  set (cropped := crop cleared (min_x box) (min_y box) (max_x box + 1)
                       (max_y box + 1)).
  destruct (Hq cropped) as (Hw' & Hh' & _).
  refine (conj Hw' (conj Hh' (conj eq_refl (conj eq_refl
           (conj eq_refl (conj eq_refl (conj _ (conj _ (conj _ _))))))))).
  - apply crop_data_length; lia.
  - cbn [cropped crop im_width]. rewrite Ew. lia.
  - cbn [cropped crop im_height]. rewrite Eh. lia.
  - cbn [cropped crop im_width im_height]. intros i j Hi Hj.
    assert (Hsome : nth_error (im_data (frame_rgba fr))
                      (Z.to_nat ((min_y box + j) * im_width (frame_rgba fr)
                                 + (min_x box + i))) <> None).
    { apply nth_error_Some. rewrite Ew. nia. }
    destruct (nth_error (im_data (frame_rgba fr))
                (Z.to_nat ((min_y box + j) * im_width (frame_rgba fr)
                           + (min_x box + i)))) as [item|] eqn:Hitem;
      [|contradiction].
    exists item. split; [reflexivity|].
    fold cropped. unfold cropped. rewrite crop_nth_error by lia.
    f_equal.
    change (if color_within_fuzz float_pow (rgb item) transparency_color
                                 fuzz_percentage
            then (0, 0, 0, 0) else item)
      with (clear_pixel float_pow transparency_color fuzz_percentage item).
    apply getpixel_inside.
    + unfold cleared. cbn [clear_frame fst putdata im_width]. lia.
    + unfold cleared. cbn [clear_frame fst putdata im_height]. lia.
    + unfold cleared. cbn [clear_frame fst putdata im_data im_width].
      rewrite nth_error_map, Hitem. reflexivity.
Qed.

Lemma frames_cropped_to_box_witness :
  exists call box,
    process_gif sqrt_pow flat_quantize (Some block_4x4)
                (Some (255, 255, 255)) 0 = Saved call
    /\ box = pass_box sqrt_pow (255, 255, 255) 0 block_4x4
    /\ new_width block_4x4 box = max_x box + 1 - min_x box
    /\ new_height block_4x4 box = max_y box + 1 - min_y box
    /\ Forall2
         (fun fr out =>
            exists cropped_frame,
              cropped_frame
              = crop (fst (clear_frame sqrt_pow (255, 255, 255) 0 fr))
                     (min_x box) (min_y box) (max_x box + 1) (max_y box + 1)
              /\ index_frame flat_quantize (255, 255, 255) box
                   (fst (clear_frame sqrt_pow (255, 255, 255) 0 fr)) = Ok out
              /\ p_width out = im_width cropped_frame
              /\ p_height out = im_height cropped_frame
              /\ p_palette out
                 = slice_assign (p_palette (flat_quantize cropped_frame))
                     765 768
                     [chan0 (255, 255, 255); chan1 (255, 255, 255);
                      chan2 (255, 255, 255)]
              /\ p_data out
                 = map (fun entry => if alpha (snd entry) =? 0 then 255
                                     else fst entry)
                       (combine (p_data (flat_quantize cropped_frame))
                                (im_data cropped_frame))
              /\ im_width cropped_frame = max_x box + 1 - min_x box
              /\ im_height cropped_frame = max_y box + 1 - min_y box
              /\ Z.of_nat (length (im_data cropped_frame))
                 = im_width cropped_frame * im_height cropped_frame
              /\ 0 < im_width cropped_frame <= im_width (frame_rgba fr)
              /\ 0 < im_height cropped_frame <= im_height (frame_rgba fr)
              /\ forall i j,
                   0 <= i < im_width cropped_frame ->
                   0 <= j < im_height cropped_frame ->
                   exists item,
                     nth_error (im_data (frame_rgba fr))
                       (Z.to_nat ((min_y box + j) * im_width (frame_rgba fr)
                                  + (min_x box + i)))
                     = Some item
                     /\ nth_error (im_data cropped_frame)
                          (Z.to_nat (j * im_width cropped_frame + i))
                        = Some (if color_within_fuzz sqrt_pow (rgb item)
                                     (255, 255, 255) 0
                                then (0, 0, 0, 0) else item))
         (img_frames block_4x4) (saved_frames call).
Proof.
  apply (frames_cropped_to_box sqrt_pow flat_quantize block_4x4
           (255, 255, 255) 0).
  - exact block_4x4_wf.
  - exact flat_quantize_keeps_size.
  - vm_compute. reflexivity.
Defined.

(** The 2 by 2 rectangle cut from the first frame of the example holds the
    red block, which starts at column 1, row 2 of the source. *)
Example block_4x4_cropped :
  im_data (crop (fst (clear_frame sqrt_pow (255, 255, 255) 0
                                  block_4x4_frame0)) 1 2 3 4)
  = [red; red; red; red].
Proof. vm_compute. reflexivity. Qed.

(** * Part III: further properties of the pipeline *)

(** ** When a run ends without content *)

Lemma kept_coords_nil_all_background (float_pow : float -> float -> float)
    (transparency_color : color) (fuzz_percentage : Z)
    (width index : Z) (datas : list pixel) :
  kept_coords float_pow transparency_color fuzz_percentage width index datas
  = [] ->
  forall item, In item datas ->
    color_within_fuzz float_pow (rgb item) transparency_color
                      fuzz_percentage = true.
Proof.
  revert index. induction datas as [|it rest IH]; intros index Hnil item Hin;
    [contradiction|].
  cbn [kept_coords] in Hnil.
  destruct (color_within_fuzz float_pow (rgb it) transparency_color
                              fuzz_percentage) eqn:E; [|discriminate].
  destruct Hin as [<-|Hin]; [exact E|].
  apply (IH (index + 1) Hnil item Hin).
Qed.

Lemma empty_box_all_background (float_pow : float -> float -> float)
    (transparency_color : color) (fuzz_percentage : Z) (img : gif_image) :
  box_empty (pass_box float_pow transparency_color fuzz_percentage img)
  = true ->
  Forall (fun fr => forall item, In item (im_data (frame_rgba fr)) ->
            color_within_fuzz float_pow (rgb item) transparency_color
                              fuzz_percentage = true) (img_frames img).
Proof.
  intros Hempty. apply Forall_forall. intros fr Hfr.
  apply (kept_coords_nil_all_background float_pow transparency_color
           fuzz_percentage (im_width (frame_rgba fr)) 0).
  destruct (kept_coords float_pow transparency_color fuzz_percentage
              (im_width (frame_rgba fr)) 0 (im_data (frame_rgba fr)))
    as [|xy rest] eqn:E; [reflexivity|].
  assert (Hin : In xy (kept_coords float_pow transparency_color
                         fuzz_percentage (im_width (frame_rgba fr)) 0
                         (im_data (frame_rgba fr))))
    by (rewrite E; left; reflexivity).
  pose proof (grow_box_frames_covers float_pow transparency_color
                fuzz_percentage (img_frames img) (initial_box img) fr xy
                Hfr Hin) as Hcov.
  apply covers_not_empty in Hcov. unfold pass_box in Hempty. congruence.
Qed.

(** X1: for a decoded animation, the run ends with the no-content message
    exactly when every pixel of every frame is background. *)
Theorem no_content_iff_all_background (float_pow : float -> float -> float)
    (quantize : rgba_image -> indexed_image) (img : gif_image)
    (transparency_color : color) (fuzz_percentage : Z) :
  gif_wf img ->
  process_gif float_pow quantize (Some img) (Some transparency_color)
              fuzz_percentage = NoContent
  <-> Forall (fun fr => forall item, In item (im_data (frame_rgba fr)) ->
                color_within_fuzz float_pow (rgb item) transparency_color
                                  fuzz_percentage = true) (img_frames img).
Proof.
  intros Hwf. split.
  - intros Hrun. apply empty_box_all_background.
    unfold process_gif in Hrun.
    rewrite (transparency_pass_ok _ _ _ img Hwf) in Hrun.
    destruct (box_empty (pass_box float_pow transparency_color
                                  fuzz_percentage img)); [reflexivity|].
    destruct (crop_and_save quantize transparency_color _ _); discriminate.
  - apply all_background_no_content, Hwf.
Qed.

Lemma no_content_iff_all_background_witness :
  process_gif sqrt_pow flat_quantize (Some block_4x4) (Some (200, 0, 0)) 100
  = NoContent
  <-> Forall (fun fr => forall item, In item (im_data (frame_rgba fr)) ->
                color_within_fuzz sqrt_pow (rgb item) (200, 0, 0) 100 = true)
             (img_frames block_4x4).
Proof.
  apply (no_content_iff_all_background sqrt_pow flat_quantize block_4x4
           (200, 0, 0) 100).
  exact block_4x4_wf.
Defined.

(** X2: for a decoded animation and a quantiser that keeps the image size, a
    run with a colour selected ends with the no-content message or with a
    [save] call, never with an exception. *)
Theorem process_gif_no_exception (float_pow : float -> float -> float)
    (quantize : rgba_image -> indexed_image) (img : gif_image)
    (transparency_color : color) (fuzz_percentage : Z) :
  gif_wf img ->
  quantize_keeps_size quantize ->
  process_gif float_pow quantize (Some img) (Some transparency_color)
              fuzz_percentage = NoContent
  \/ exists call,
       process_gif float_pow quantize (Some img) (Some transparency_color)
                   fuzz_percentage = Saved call.
Proof.
  intros Hwf Hq.
  destruct (box_empty (pass_box float_pow transparency_color
                                fuzz_percentage img)) eqn:Hbox.
  - left. unfold process_gif.
    rewrite (transparency_pass_ok _ _ _ img Hwf), Hbox. reflexivity.
  - right.
    destruct (process_gif_saved float_pow quantize transparency_color
                fuzz_percentage Hq img Hwf Hbox) as (call & Hrun & _).
    exists call. exact Hrun.
Qed.

Lemma process_gif_no_exception_witness :
  process_gif sqrt_pow flat_quantize (Some block_4x4)
              (Some (255, 255, 255)) 0 = NoContent
  \/ exists call,
       process_gif sqrt_pow flat_quantize (Some block_4x4)
                   (Some (255, 255, 255)) 0 = Saved call.
Proof.
  apply (process_gif_no_exception sqrt_pow flat_quantize block_4x4
           (255, 255, 255) 0).
  - exact block_4x4_wf.
  - exact flat_quantize_keeps_size.
Defined.

(** ** The box is the bounding box of the pixels that stay *)

(** Each side of the box after the loop is the side it started with or a
    coordinate of the list. *)
Lemma grow_box_loop_attained (pts : list (Z * Z)) (b : bbox) :
  (min_x (fold_left grow_box pts b) = min_x b
   \/ exists xy, In xy pts /\ fst xy = min_x (fold_left grow_box pts b))
  /\ (max_x (fold_left grow_box pts b) = max_x b
      \/ exists xy, In xy pts /\ fst xy = max_x (fold_left grow_box pts b))
  /\ (min_y (fold_left grow_box pts b) = min_y b
      \/ exists xy, In xy pts /\ snd xy = min_y (fold_left grow_box pts b))
  /\ (max_y (fold_left grow_box pts b) = max_y b
      \/ exists xy, In xy pts /\ snd xy = max_y (fold_left grow_box pts b)).
Proof.
  revert b. induction pts as [|[x y] pts IH]; intros b.
  - cbn. auto.
  - cbn [fold_left].
    destruct (IH (grow_box b (x, y))) as (H1 & H2 & H3 & H4).
    assert (E1 : min_x (grow_box b (x, y)) = Z.min x (min_x b))
      by (rewrite grow_box_minmax; reflexivity).
    assert (E2 : max_x (grow_box b (x, y)) = Z.max x (max_x b))
      by (rewrite grow_box_minmax; reflexivity).
    assert (E3 : min_y (grow_box b (x, y)) = Z.min y (min_y b))
      by (rewrite grow_box_minmax; reflexivity).
    assert (E4 : max_y (grow_box b (x, y)) = Z.max y (max_y b))
      by (rewrite grow_box_minmax; reflexivity).
    rewrite E1 in H1. rewrite E2 in H2. rewrite E3 in H3. rewrite E4 in H4.
    clear E1 E2 E3 E4.
    assert (Hlater : forall P : Z * Z -> Prop,
               (exists xy, In xy pts /\ P xy) ->
               exists xy, In xy ((x, y) :: pts) /\ P xy).
    { intros P (xy & Hin & HP). exists xy. split; [right; exact Hin|exact HP]. }
    repeat split.
    + destruct H1 as [E|H]; [|right; apply Hlater, H].
      destruct (Z.min_spec x (min_x b)) as [[_ Em]|[_ Em]]; rewrite Em in E.
      * right. exists (x, y).
        split; [left; reflexivity|cbn [fst snd]; symmetry; exact E].
      * left. exact E.
    + destruct H2 as [E|H]; [|right; apply Hlater, H].
      destruct (Z.max_spec x (max_x b)) as [[_ Em]|[_ Em]]; rewrite Em in E.
      * left. exact E.
      * right. exists (x, y).
        split; [left; reflexivity|cbn [fst snd]; symmetry; exact E].
    + destruct H3 as [E|H]; [|right; apply Hlater, H].
      destruct (Z.min_spec y (min_y b)) as [[_ Em]|[_ Em]]; rewrite Em in E.
      * right. exists (x, y).
        split; [left; reflexivity|cbn [fst snd]; symmetry; exact E].
      * left. exact E.
    + destruct H4 as [E|H]; [|right; apply Hlater, H].
      destruct (Z.max_spec y (max_y b)) as [[_ Em]|[_ Em]]; rewrite Em in E.
      * left. exact E.
      * right. exists (x, y).
        split; [left; reflexivity|cbn [fst snd]; symmetry; exact E].
Qed.

Section Tight.

Variable float_pow : float -> float -> float.
Variable transparency_color : color.
Variable fuzz_percentage : Z.

Lemma grow_box_frames_attained (frames : list gif_frame) (b : bbox) :
  let b' := grow_box_frames float_pow transparency_color fuzz_percentage
                            b frames in
  (min_x b' = min_x b
   \/ exists xy,
        recorded float_pow transparency_color fuzz_percentage frames xy
        /\ fst xy = min_x b')
  /\ (max_x b' = max_x b
      \/ exists xy,
        recorded float_pow transparency_color fuzz_percentage frames xy
        /\ fst xy = max_x b')
  /\ (min_y b' = min_y b
      \/ exists xy,
        recorded float_pow transparency_color fuzz_percentage frames xy
        /\ snd xy = min_y b')
  /\ (max_y b' = max_y b
      \/ exists xy,
        recorded float_pow transparency_color fuzz_percentage frames xy
        /\ snd xy = max_y b').
Proof.
  cbv zeta. revert b. induction frames as [|fr frames IH]; intros b.
  - cbn. auto.
  - change (grow_box_frames float_pow transparency_color fuzz_percentage
                            b (fr :: frames))
      with (grow_box_frames float_pow transparency_color fuzz_percentage
              (fold_left grow_box
                 (kept_coords float_pow transparency_color fuzz_percentage
                              (im_width (frame_rgba fr)) 0
                              (im_data (frame_rgba fr))) b)
              frames).
    set (pts := kept_coords float_pow transparency_color fuzz_percentage
                            (im_width (frame_rgba fr)) 0
                            (im_data (frame_rgba fr))).
    assert (Hlater : forall xy,
               recorded float_pow transparency_color fuzz_percentage
                        frames xy ->
               recorded float_pow transparency_color fuzz_percentage
                        (fr :: frames) xy).
    { intros xy (f & Hf & Hxy). exists f. split; [right; exact Hf|exact Hxy]. }
    assert (Hnow : forall xy, In xy pts ->
               recorded float_pow transparency_color fuzz_percentage
                        (fr :: frames) xy).
    { intros xy Hxy. exists fr. split; [left; reflexivity|exact Hxy]. }
    destruct (IH (fold_left grow_box pts b)) as (H1 & H2 & H3 & H4).
    destruct (grow_box_loop_attained pts b) as (G1 & G2 & G3 & G4).
    repeat split.
    + destruct H1 as [E|(xy & Hr & E)]; [|right; exists xy; auto].
      destruct G1 as [G|(xy & Hin & G)]; [left; congruence|].
      right. exists xy. split; [auto|congruence].
    + destruct H2 as [E|(xy & Hr & E)]; [|right; exists xy; auto].
      destruct G2 as [G|(xy & Hin & G)]; [left; congruence|].
      right. exists xy. split; [auto|congruence].
    + destruct H3 as [E|(xy & Hr & E)]; [|right; exists xy; auto].
      destruct G3 as [G|(xy & Hin & G)]; [left; congruence|].
      right. exists xy. split; [auto|congruence].
    + destruct H4 as [E|(xy & Hr & E)]; [|right; exists xy; auto].
      destruct G4 as [G|(xy & Hin & G)]; [left; congruence|].
      right. exists xy. split; [auto|congruence].
Qed.

Lemma recorded_kept_pixel (img : gif_image) (xy : Z * Z) :
  recorded float_pow transparency_color fuzz_percentage (img_frames img) xy
  <-> kept_pixel float_pow transparency_color fuzz_percentage img xy.
Proof.
  unfold recorded, kept_pixel. split.
  - intros (fr & Hfr & Hin).
    apply kept_coords_In in Hin as (i & item & Hi & Hc & ->).
    exists fr, i, item. rewrite !Z.add_0_l. auto.
  - intros (fr & i & item & Hfr & Hi & Hc & ->).
    exists fr. split; [exact Hfr|]. apply kept_coords_In.
    exists i, item. rewrite !Z.add_0_l. auto.
Qed.

End Tight.

(** X3: for a decoded animation with a non-empty box, the box is the
    bounding box of the pixels that are not background: it contains every
    such pixel of every frame, and each of its four sides passes through
    one. *)
Theorem pass_box_is_bounding_box (float_pow : float -> float -> float)
    (img : gif_image) (transparency_color : color) (fuzz_percentage : Z) :
  gif_wf img ->
  box_empty (pass_box float_pow transparency_color fuzz_percentage img)
  = false ->
  (forall xy,
     kept_pixel float_pow transparency_color fuzz_percentage img xy ->
     covers (pass_box float_pow transparency_color fuzz_percentage img) xy)
  /\ (exists xy,
        kept_pixel float_pow transparency_color fuzz_percentage img xy
        /\ fst xy
           = min_x (pass_box float_pow transparency_color fuzz_percentage img))
  /\ (exists xy,
        kept_pixel float_pow transparency_color fuzz_percentage img xy
        /\ fst xy
           = max_x (pass_box float_pow transparency_color fuzz_percentage img))
  /\ (exists xy,
        kept_pixel float_pow transparency_color fuzz_percentage img xy
        /\ snd xy
           = min_y (pass_box float_pow transparency_color fuzz_percentage img))
  /\ (exists xy,
        kept_pixel float_pow transparency_color fuzz_percentage img xy
        /\ snd xy
           = max_y (pass_box float_pow transparency_color fuzz_percentage img)).
Proof.
  intros Hwf Hbox.
  pose proof (pass_box_within float_pow transparency_color fuzz_percentage
                img Hwf) as Hin.
  pose proof (grow_box_frames_attained float_pow transparency_color
                fuzz_percentage (img_frames img) (initial_box img))
    as (H1 & H2 & H3 & H4).
  cbv zeta in H1, H2, H3, H4.
  fold (pass_box float_pow transparency_color fuzz_percentage img)
    in H1, H2, H3, H4.
  apply box_empty_false in Hbox. destruct Hbox as [Hx Hy].
  unfold box_within in Hin. cbn [initial_box min_x max_x min_y max_y]
    in H1, H2, H3, H4.
  assert (A1 : exists xy,
             kept_pixel float_pow transparency_color fuzz_percentage img xy
             /\ fst xy = min_x (pass_box float_pow transparency_color
                                         fuzz_percentage img)).
  { destruct H1 as [E|(xy & Hr & E)]; [lia|].
    exists xy. split; [apply recorded_kept_pixel, Hr|exact E]. }
  assert (A3 : exists xy,
             kept_pixel float_pow transparency_color fuzz_percentage img xy
             /\ snd xy = min_y (pass_box float_pow transparency_color
                                         fuzz_percentage img)).
  { destruct H3 as [E|(xy & Hr & E)]; [lia|].
    exists xy. split; [apply recorded_kept_pixel, Hr|exact E]. }
  split; [|split; [exact A1|split; [|split; [exact A3|]]]].
  - intros xy (fr & i & item & Hfr & Hi & Hc & ->).
    apply (pass_box_covers _ _ _ img fr i item Hfr Hi Hc).
  - destruct H2 as [E|(xy & Hr & E)].
    + destruct A1 as (xy & Hk & E1). exists xy. split; [exact Hk|lia].
    + exists xy. split; [apply recorded_kept_pixel, Hr|exact E].
  - destruct H4 as [E|(xy & Hr & E)].
    + destruct A3 as (xy & Hk & E3). exists xy. split; [exact Hk|lia].
    + exists xy. split; [apply recorded_kept_pixel, Hr|exact E].
Qed.

Lemma pass_box_is_bounding_box_witness :
  (forall xy,
     kept_pixel sqrt_pow (255, 255, 255) 0 block_4x4 xy ->
     covers (pass_box sqrt_pow (255, 255, 255) 0 block_4x4) xy)
  /\ (exists xy,
        kept_pixel sqrt_pow (255, 255, 255) 0 block_4x4 xy
        /\ fst xy = min_x (pass_box sqrt_pow (255, 255, 255) 0 block_4x4))
  /\ (exists xy,
        kept_pixel sqrt_pow (255, 255, 255) 0 block_4x4 xy
        /\ fst xy = max_x (pass_box sqrt_pow (255, 255, 255) 0 block_4x4))
  /\ (exists xy,
        kept_pixel sqrt_pow (255, 255, 255) 0 block_4x4 xy
        /\ snd xy = min_y (pass_box sqrt_pow (255, 255, 255) 0 block_4x4))
  /\ (exists xy,
        kept_pixel sqrt_pow (255, 255, 255) 0 block_4x4 xy
        /\ snd xy = max_y (pass_box sqrt_pow (255, 255, 255) 0 block_4x4)).
Proof.
  apply (pass_box_is_bounding_box sqrt_pow block_4x4 (255, 255, 255) 0).
  - exact block_4x4_wf.
  - vm_compute. reflexivity.
Defined.

(** ** More fuzz, smaller box *)

Lemma kept_pixel_less_fuzz (float_pow : float -> float -> float)
    (img : gif_image) (transparency_color : color) (f1 f2 : Z) (xy : Z * Z) :
  pow_half_accurate float_pow ->
  gif_colors_ok img -> color_ok transparency_color ->
  0 <= f1 -> f1 <= f2 -> f2 <= 100 ->
  kept_pixel float_pow transparency_color f2 img xy ->
  kept_pixel float_pow transparency_color f1 img xy.
Proof.
  intros Hpw Hcol Hc H1 H12 H2 (fr & i & item & Hfr & Hi & Hk & ->).
  exists fr, i, item. repeat split; auto.
  unfold gif_colors_ok in Hcol. rewrite Forall_forall in Hcol.
  pose proof (Hcol fr Hfr) as Hfrc. rewrite Forall_forall in Hfrc.
  pose proof (Hfrc item (nth_error_In _ _ Hi)) as Hitem.
  rewrite (color_within_fuzz_int float_pow Hpw _ _ f2 Hitem Hc) in Hk by lia.
  rewrite (color_within_fuzz_int float_pow Hpw _ _ f1 Hitem Hc) by lia.
  apply Z.leb_gt in Hk. apply Z.leb_gt. nia.
Qed.

(** X4: raising the fuzz never enlarges the crop: for 8-bit pixels and
    [0 <= f1 <= f2 <= 100], the box found at [f2] lies inside the box found
    at [f1]. *)
Theorem pass_box_shrinks_with_fuzz (float_pow : float -> float -> float)
    (img : gif_image) (transparency_color : color) (f1 f2 : Z) :
  pow_half_accurate float_pow ->
  gif_wf img -> gif_colors_ok img -> color_ok transparency_color ->
  0 <= f1 -> f1 <= f2 -> f2 <= 100 ->
  box_le (pass_box float_pow transparency_color f2 img)
         (pass_box float_pow transparency_color f1 img).
Proof.
  intros Hpw Hwf Hcol Hc H1 H12 H2.
  pose proof (pass_box_within float_pow transparency_color f1 img Hwf) as Hin.
  pose proof (grow_box_frames_attained float_pow transparency_color
                f2 (img_frames img) (initial_box img))
    as (A1 & A2 & A3 & A4).
  cbv zeta in A1, A2, A3, A4.
  fold (pass_box float_pow transparency_color f2 img) in A1, A2, A3, A4.
  cbn [initial_box min_x max_x min_y max_y] in A1, A2, A3, A4.
  assert (Hcov : forall xy,
             recorded float_pow transparency_color f2 (img_frames img) xy ->
             covers (pass_box float_pow transparency_color f1 img) xy).
  { intros xy Hr. apply recorded_kept_pixel in Hr.
    apply (kept_pixel_less_fuzz float_pow img transparency_color f1 f2 xy
             Hpw Hcol Hc H1 H12 H2) in Hr.
    destruct Hr as (fr & i & item & Hfr & Hi & Hk & ->).
    apply (pass_box_covers _ _ _ img fr i item Hfr Hi Hk). }
  unfold box_within in Hin. unfold box_le. repeat split.
  - destruct A1 as [E|(xy & Hr & E)]; [lia|].
    destruct (Hcov xy Hr) as [Hx _]. lia.
  - destruct A2 as [E|(xy & Hr & E)]; [lia|].
    destruct (Hcov xy Hr) as [Hx _]. lia.
  - destruct A3 as [E|(xy & Hr & E)]; [lia|].
    destruct (Hcov xy Hr) as [_ Hy]. lia.
  - destruct A4 as [E|(xy & Hr & E)]; [lia|].
    destruct (Hcov xy Hr) as [_ Hy]. lia.
Qed.

Lemma block_4x4_colors_ok : gif_colors_ok block_4x4.
Proof.
  unfold gif_colors_ok, block_4x4, color_ok, is_u8, white, red.
  cbn. repeat constructor; cbn; lia.
Qed.

Lemma pass_box_shrinks_with_fuzz_witness :
  box_le (pass_box sqrt_pow (255, 255, 255) 90 block_4x4)
         (pass_box sqrt_pow (255, 255, 255) 10 block_4x4).
Proof.
  apply (pass_box_shrinks_with_fuzz sqrt_pow block_4x4 (255, 255, 255) 10 90).
  - exact sqrt_pow_accurate.
  - exact block_4x4_wf.
  - exact block_4x4_colors_ok.
  - apply color_ok_intro; lia.
  - lia.
  - lia.
  - lia.
Defined.

(** ** The pixels of the output frames *)

Lemma alpha_clear_pixel (float_pow : float -> float -> float)
    (transparency_color : color) (fuzz_percentage : Z) (item : pixel) :
  (alpha (clear_pixel float_pow transparency_color fuzz_percentage item) =? 0)
  = color_within_fuzz float_pow (rgb item) transparency_color
                      fuzz_percentage
    || (alpha item =? 0).
Proof.
  unfold clear_pixel.
  destruct (color_within_fuzz float_pow (rgb item) transparency_color
                              fuzz_percentage); reflexivity.
Qed.

(** X5: in the saved frame number [k], the pixel that comes from column [x],
    row [y] of source frame [k] (a position inside the box) sits at column
    [x - min_x], row [y - min_y]; its palette index is 255 when the source
    pixel is background or already had alpha 0, and the quantiser's index
    otherwise. *)
Theorem saved_pixel_index (float_pow : float -> float -> float)
    (quantize : rgba_image -> indexed_image) (img : gif_image)
    (transparency_color : color) (fuzz_percentage : Z)
    (k : nat) (fr : gif_frame) (x y : Z) (item : pixel) :
  gif_wf img ->
  quantize_keeps_size quantize ->
  nth_error (img_frames img) k = Some fr ->
  covers (pass_box float_pow transparency_color fuzz_percentage img) (x, y) ->
  nth_error (im_data (frame_rgba fr)) (Z.to_nat (y * img_width img + x))
  = Some item ->
  exists call out idx,
    process_gif float_pow quantize (Some img) (Some transparency_color)
                fuzz_percentage = Saved call
    /\ nth_error (saved_frames call) k = Some out
    /\ nth_error
         (p_data (quantize
                    (crop_to_box
                       (pass_box float_pow transparency_color
                                 fuzz_percentage img)
                       (fst (clear_frame float_pow transparency_color
                                         fuzz_percentage fr)))))
         (Z.to_nat
            ((y - min_y (pass_box float_pow transparency_color
                                  fuzz_percentage img))
             * p_width out
             + (x - min_x (pass_box float_pow transparency_color
                                    fuzz_percentage img))))
       = Some idx
    /\ nth_error (p_data out)
         (Z.to_nat
            ((y - min_y (pass_box float_pow transparency_color
                                  fuzz_percentage img))
             * p_width out
             + (x - min_x (pass_box float_pow transparency_color
                                    fuzz_percentage img))))
       = Some (if color_within_fuzz float_pow (rgb item) transparency_color
                                    fuzz_percentage
                  || (alpha item =? 0)
               then 255 else idx).
Proof.
  intros Hwf Hq Hk Hcov Hitem.
  assert (Hbox : box_empty (pass_box float_pow transparency_color
                                     fuzz_percentage img) = false)
    by (eapply covers_not_empty, Hcov).
  destruct (process_gif_saved float_pow quantize transparency_color
              fuzz_percentage Hq img Hwf Hbox)
    as (call & Hrun & Hframes & _).
  pose proof (pass_box_within float_pow transparency_color fuzz_percentage
                img Hwf) as Hin.
  set (box := pass_box float_pow transparency_color fuzz_percentage img) in *.
  set (cleared := fst (clear_frame float_pow transparency_color
                                   fuzz_percentage fr)).
  set (cropped := crop_to_box box cleared).
  destruct (Hq cropped) as (Hw' & _ & Hlen').
  destruct Hwf as (Hw & Hh & Hall). rewrite Forall_forall in Hall.
  destruct (Hall fr (nth_error_In _ _ Hk)) as (Ew & Eh & Elen).
  unfold covers in Hcov. cbn [fst snd] in Hcov. unfold box_within in Hin.
  assert (Hpix : nth_error (im_data cropped)
                   (Z.to_nat ((y - min_y box) * (max_x box + 1 - min_x box)
                              + (x - min_x box)))
                 = Some (clear_pixel float_pow transparency_color
                                     fuzz_percentage item)).
  { unfold cropped, crop_to_box. rewrite crop_nth_error by lia.
    f_equal. apply getpixel_inside.
    - unfold cleared. cbn. lia.
    - unfold cleared. cbn. lia.
    - unfold cleared. cbn [clear_frame fst putdata im_data im_width].
      rewrite nth_error_map, Ew.
      replace (min_x box + (x - min_x box)) with x by lia.
      replace (min_y box + (y - min_y box)) with y by lia.
      rewrite Hitem. reflexivity. }
  assert (Hidx : exists idx,
             nth_error (p_data (quantize cropped))
               (Z.to_nat ((y - min_y box) * (max_x box + 1 - min_x box)
                          + (x - min_x box))) = Some idx).
  { destruct (nth_error (p_data (quantize cropped))
                (Z.to_nat ((y - min_y box) * (max_x box + 1 - min_x box)
                           + (x - min_x box)))) as [idx|] eqn:E;
      [exists idx; reflexivity|].
    apply nth_error_None in E. rewrite Hlen' in E.
    assert (Hsome : nth_error (im_data cropped)
                      (Z.to_nat ((y - min_y box)
                                 * (max_x box + 1 - min_x box)
                                 + (x - min_x box))) <> None)
      by (rewrite Hpix; discriminate).
    apply nth_error_Some in Hsome. lia. }
  destruct Hidx as (idx & Hidx).
  exists call, (indexed_frame quantize transparency_color box cleared), idx.
  split; [exact Hrun|]. split.
  - rewrite Hframes, nth_error_map, Hk. reflexivity.
  - unfold indexed_frame. cbv zeta. fold cropped. cbn [p_width p_data].
    rewrite Hw'. change (im_width cropped) with (max_x box + 1 - min_x box).
    split; [exact Hidx|].
    rewrite remapped_nth_error, Hidx, Hpix, alpha_clear_pixel. reflexivity.
Qed.

Lemma saved_pixel_index_witness :
  exists call out idx,
    process_gif sqrt_pow flat_quantize (Some block_4x4)
                (Some (255, 255, 255)) 0 = Saved call
    /\ nth_error (saved_frames call) 0 = Some out
    /\ nth_error
         (p_data (flat_quantize
                    (crop_to_box
                       (pass_box sqrt_pow (255, 255, 255) 0 block_4x4)
                       (fst (clear_frame sqrt_pow (255, 255, 255) 0
                                         block_4x4_frame0)))))
         (Z.to_nat
            ((2 - min_y (pass_box sqrt_pow (255, 255, 255) 0 block_4x4))
             * p_width out
             + (1 - min_x (pass_box sqrt_pow (255, 255, 255) 0 block_4x4))))
       = Some idx
    /\ nth_error (p_data out)
         (Z.to_nat
            ((2 - min_y (pass_box sqrt_pow (255, 255, 255) 0 block_4x4))
             * p_width out
             + (1 - min_x (pass_box sqrt_pow (255, 255, 255) 0 block_4x4))))
       = Some (if color_within_fuzz sqrt_pow (rgb red) (255, 255, 255) 0
                  || (alpha red =? 0)
               then 255 else idx).
Proof.
  apply (saved_pixel_index sqrt_pow flat_quantize block_4x4
           (255, 255, 255) 0 0 block_4x4_frame0 1 2 red).
  - exact block_4x4_wf.
  - exact flat_quantize_keeps_size.
  - reflexivity.
  - rewrite block_4x4_box. unfold covers. cbn. lia.
  - reflexivity.
Defined.

(** ** What every [save] call looks like *)

Section SaveShape.

Variable float_pow : float -> float -> float.
Variable quantize : rgba_image -> indexed_image.
Variable transparency_color : color.
Variable fuzz_percentage : Z.

Lemma frame_loop_raise (frames : list gif_frame) (e : exn) :
  fold_left (frame_step float_pow transparency_color fuzz_percentage)
            frames (Raise e) = Raise e.
Proof. induction frames as [|fr frames IH]; [reflexivity|exact IH]. Qed.

Lemma crop_loop_raise (b : bbox) (temp_frames : list (rgba_image * Z))
    (e : exn) :
  fold_left (crop_step quantize transparency_color b) temp_frames (Raise e)
  = Raise e.
Proof. induction temp_frames as [|t rest IH]; [reflexivity|exact IH]. Qed.

(** Whenever the first loop completes, [temp_frames] carries the durations
    of the frames in order. *)
Lemma frame_loop_durations (frames : list gif_frame) :
  forall box temp_frames box' temp_frames',
    fold_left (frame_step float_pow transparency_color fuzz_percentage)
              frames (Ok (box, temp_frames)) = Ok (box', temp_frames') ->
    map snd temp_frames'
    = map snd temp_frames ++ map duration_of frames.
Proof.
  induction frames as [|fr frames IH]; intros box temp box' temp' Hrun.
  - cbn in Hrun. injection Hrun as _ <-. cbn. rewrite app_nil_r. reflexivity.
  - cbn [fold_left] in Hrun. unfold frame_step at 2 in Hrun.
    cbn [bind] in Hrun.
    destruct (remove_background float_pow transparency_color fuzz_percentage
                                (frame_rgba fr)) as [[fr' ntp]|e].
    + cbn [bind] in Hrun. apply IH in Hrun.
      rewrite Hrun, map_app, <- app_assoc. reflexivity.
    + cbn [bind] in Hrun. rewrite frame_loop_raise in Hrun. discriminate.
Qed.

Lemma index_frame_transparency (b : bbox) (frame_rgba : rgba_image)
    (out : indexed_image) :
  index_frame quantize transparency_color b frame_rgba = Ok out ->
  p_transparency out = Some 255.
Proof.
  unfold index_frame. cbv zeta.
  destruct (remap_transparent _ _) as [data|e]; cbn [bind]; [|discriminate].
  intros H. injection H as <-. reflexivity.
Qed.

(** Whenever the second loop completes, it has produced one frame per
    entry, each marked with transparent index 255, and passed the durations
    on. *)
Lemma crop_loop_shape (b : bbox) (temp_frames : list (rgba_image * Z)) :
  forall pf pd pf' pd',
    fold_left (crop_step quantize transparency_color b) temp_frames
              (Ok (pf, pd)) = Ok (pf', pd') ->
    pd' = pd ++ map snd temp_frames
    /\ length pf' = (length pf + length temp_frames)%nat
    /\ (Forall (fun out => p_transparency out = Some 255) pf ->
        Forall (fun out => p_transparency out = Some 255) pf').
Proof.
  induction temp_frames as [|[fr d] rest IH]; intros pf pd pf' pd' Hrun.
  - cbn in Hrun. injection Hrun as <- <-. rewrite app_nil_r. cbn.
    repeat split; auto.
  - cbn [fold_left] in Hrun. unfold crop_step at 2 in Hrun.
    cbn [bind] in Hrun.
    destruct (index_frame quantize transparency_color b fr) as [out|e] eqn:E.
    + cbn [bind] in Hrun. apply IH in Hrun as (Hd & Hl & HF).
      repeat split.
      * rewrite Hd. cbn [map snd]. rewrite <- app_assoc. reflexivity.
      * rewrite Hl, length_app. cbn. lia.
      * intros Hpf. apply HF. apply Forall_app. split; [exact Hpf|].
        constructor; [|constructor].
        apply (index_frame_transparency b fr out E).
    + cbn [bind] in Hrun. rewrite crop_loop_raise in Hrun. discriminate.
Qed.

End SaveShape.

(** X6: whatever the input, a run that reaches the [save] call had an
    animation and a selected colour, and passes one frame per input frame,
    each with [info['transparency'] = 255], the input durations in order (100
    where the source has none), [loop=0], [transparency=255] and
    [disposal=2]. *)
Theorem saved_call_shape (float_pow : float -> float -> float)
    (quantize : rgba_image -> indexed_image)
    (gif : option gif_image) (selected_color : option color)
    (fuzz_percentage : Z) (call : save_call) :
  process_gif float_pow quantize gif selected_color fuzz_percentage
  = Saved call ->
  exists img,
    gif = Some img
    /\ selected_color <> None
    /\ length (saved_frames call) = length (img_frames img)
    /\ save_duration call = map duration_of (img_frames img)
    /\ Forall (fun out => p_transparency out = Some 255) (saved_frames call)
    /\ save_loop call = 0
    /\ save_transparency call = 255
    /\ save_disposal call = 2.
Proof.
  unfold process_gif. intros Hrun.
  destruct gif as [img|]; [|discriminate].
  destruct selected_color as [c|]; [|discriminate].
  exists img. split; [reflexivity|]. split; [discriminate|].
  destruct (transparency_pass float_pow c fuzz_percentage img)
    as [[box temp]|e] eqn:Hpass; [|discriminate].
  destruct (box_empty box); [discriminate|].
  destruct (crop_and_save quantize c box temp) as [call'|e] eqn:Hsave;
    [|discriminate].
  injection Hrun as ->.
  unfold transparency_pass in Hpass.
  apply frame_loop_durations in Hpass. cbn [map app] in Hpass.
  unfold crop_and_save in Hsave.
  destruct (fold_left (crop_step quantize c box) temp (Ok ([], [])))
    as [[pf pd]|e] eqn:Hloop; [|discriminate].
  cbn [bind] in Hsave.
  apply crop_loop_shape in Hloop as (Hd & Hl & HF).
  destruct pf as [|first rest]; [discriminate|].
  injection Hsave as <-.
  unfold saved_frames.
  cbn [save_first save_append_images save_duration save_loop
       save_transparency save_disposal].
  cbn [app] in Hd. cbn [length Nat.add] in Hl.
  repeat split.
  - transitivity (length temp); [exact Hl|].
    rewrite <- (length_map snd temp), Hpass. apply length_map.
  - rewrite Hd. exact Hpass.
  - apply HF. constructor.
Qed.

Lemma saved_call_shape_witness :
  exists call,
    process_gif sqrt_pow flat_quantize (Some block_4x4)
                (Some (255, 255, 255)) 0 = Saved call
    /\ exists img,
         Some block_4x4 = Some img
         /\ Some (255, 255, 255) <> None
         /\ length (saved_frames call) = length (img_frames img)
         /\ save_duration call = map duration_of (img_frames img)
         /\ Forall (fun out => p_transparency out = Some 255)
                   (saved_frames call)
         /\ save_loop call = 0
         /\ save_transparency call = 255
         /\ save_disposal call = 2.
Proof.
  eexists. split.
  - vm_compute. reflexivity.
  - apply (saved_call_shape sqrt_pow flat_quantize (Some block_4x4)
             (Some (255, 255, 255)) 0).
    vm_compute. reflexivity.
Defined.

(** ** What fuzz admits, channel by channel *)

(** X7: a pixel the classifier takes for background differs from the target
    by at most [fuzz * 255 / 100] in each channel: [20 * |d| <= 51 * fuzz]. *)
Theorem color_within_fuzz_channels (float_pow : float -> float -> float)
    (p t : color) (fuzz : Z) :
  pow_half_accurate float_pow ->
  color_ok p -> color_ok t -> 0 <= fuzz <= 100 ->
  color_within_fuzz float_pow p t fuzz = true ->
  20 * Z.abs (chan0 p - chan0 t) <= 51 * fuzz
  /\ 20 * Z.abs (chan1 p - chan1 t) <= 51 * fuzz
  /\ 20 * Z.abs (chan2 p - chan2 t) <= 51 * fuzz.
Proof.
  intros Hpw Hp Ht Hf Hbg.
  rewrite (color_within_fuzz_int float_pow Hpw p t fuzz Hp Ht Hf) in Hbg.
  apply Z.leb_le in Hbg. unfold sq_dist in Hbg. rewrite !Z.pow_2_r in Hbg.
  pose proof (Z.abs_nonneg (chan0 p - chan0 t)).
  pose proof (Z.abs_nonneg (chan1 p - chan1 t)).
  pose proof (Z.abs_nonneg (chan2 p - chan2 t)).
  repeat split; nia.
Qed.

Lemma color_within_fuzz_channels_witness :
  color_within_fuzz sqrt_pow (100, 100, 100) (110, 105, 98) 5 = true
  /\ (20 * Z.abs (chan0 (100, 100, 100) - chan0 (110, 105, 98)) <= 51 * 5
      /\ 20 * Z.abs (chan1 (100, 100, 100) - chan1 (110, 105, 98)) <= 51 * 5
      /\ 20 * Z.abs (chan2 (100, 100, 100) - chan2 (110, 105, 98))
         <= 51 * 5).
Proof.
  split; [vm_compute; reflexivity|].
  apply (color_within_fuzz_channels sqrt_pow (100, 100, 100) (110, 105, 98) 5).
  - exact sqrt_pow_accurate.
  - apply color_ok_intro; lia.
  - apply color_ok_intro; lia.
  - lia.
  - vm_compute. reflexivity.
Defined.

(** * Part IV: the widget *)

(** ** Files *)

Lemma write_file_same (fs : Ui.filesystem) (p : Ui.path) (f : Ui.file) :
  Ui.write_file fs p f p = Some f.
Proof. unfold Ui.write_file. rewrite String.eqb_refl. reflexivity. Qed.

Lemma write_file_other (fs : Ui.filesystem) (p q : Ui.path) (f : Ui.file) :
  q <> p -> Ui.write_file fs p f q = fs q.
Proof.
  intros Hne. unfold Ui.write_file.
  destruct (String.eqb_spec q p); [contradiction|reflexivity].
Qed.

Lemma remove_file_same (fs : Ui.filesystem) (p : Ui.path) :
  Ui.remove_file fs p p = None.
Proof. unfold Ui.remove_file. rewrite String.eqb_refl. reflexivity. Qed.

Lemma remove_file_other (fs : Ui.filesystem) (p q : Ui.path) :
  q <> p -> Ui.remove_file fs p q = fs q.
Proof.
  intros Hne. unfold Ui.remove_file.
  destruct (String.eqb_spec q p); [contradiction|reflexivity].
Qed.

Lemma copy_file_some (fs fs' : Ui.filesystem) (src dst : Ui.path)
    (succeeds : bool) :
  Ui.copy_file fs src dst succeeds = Some fs' ->
  exists f, fs src = Some f /\ src <> dst /\ succeeds = true
            /\ fs' = Ui.write_file fs dst f.
Proof.
  unfold Ui.copy_file. destruct (fs src) as [f|]; [|discriminate].
  destruct succeeds; cbn [andb]; [|discriminate].
  destruct (String.eqb_spec src dst); cbn [negb]; [discriminate|].
  intros H. injection H as <-. exists f. auto.
Qed.

(** ** What a slot does to the widget and the disk *)

Ltac slot_failed :=
  cbn; refine (conj _ (conj _ (conj _ (conj _ (conj _ _)))));
  [ reflexivity | first [reflexivity | assumption] | reflexivity
  | reflexivity
  | intros; reflexivity
  | left; refine (conj _ (conj _ (conj _ (conj _ (conj _ _)))));
    [ discriminate | reflexivity | reflexivity | reflexivity | reflexivity
    | first [left; reflexivity | right; reflexivity] ] ].

(** What a run of the slot [process_gif] can do to the widget and the
    disk: either it fails or finds nothing (the controls stay, at most the
    temporary path is recorded and the temporary file touched), or it
    succeeds (the animation is on disk at the temporary path and Save is
    shown). *)
Lemma process_gif_slot_cases (float_pow : float -> float -> float)
    (quantize : rgba_image -> indexed_image) (temp_output : Ui.path)
    (env : Ui.process_env) (w : Ui.widget) (fs : Ui.filesystem) :
  let w' := fst (Ui.process_gif float_pow quantize temp_output env w fs) in
  let fs' := snd (Ui.process_gif float_pow quantize temp_output env w fs) in
  Ui.gif_path w' = Ui.gif_path w
  /\ Ui.selected_color w' = Ui.selected_color w
  /\ Ui.fuzz_slider_value w' = Ui.fuzz_slider_value w
  /\ Ui.open_button_hidden w' = Ui.open_button_hidden w
  /\ (forall p, p <> temp_output -> fs' p = fs p)
  /\ ((Ui.status_label w' <> Ui.StatusRemoved
       /\ Ui.process_button_hidden w' = Ui.process_button_hidden w
       /\ Ui.save_button_hidden w' = Ui.save_button_hidden w
       /\ Ui.fuzz_slider_hidden w' = Ui.fuzz_slider_hidden w
       /\ Ui.movie w' = Ui.movie w
       /\ (Ui.processed_gif_path w' = Ui.processed_gif_path w
           \/ Ui.processed_gif_path w' = Some temp_output))
      \/ (Ui.status_label w' = Ui.StatusRemoved
          /\ Ui.process_button_hidden w' = true
          /\ Ui.save_button_hidden w' = false
          /\ Ui.fuzz_slider_hidden w' = true
          /\ Ui.movie w' = Some temp_output
          /\ Ui.processed_gif_path w' = Some temp_output
          /\ exists call, fs' = Ui.write_file fs temp_output
                                              (Ui.Encoded call))).
Proof.
  cbv zeta. unfold Ui.process_gif.
  destruct (Ui.truthy (Ui.gif_path w)); [|slot_failed].
  destruct (Ui.selected_color w) as [c|] eqn:Ec; [|slot_failed].
  destruct (Ui.decoded env) as [img|]; [|slot_failed].
  destruct (transparency_pass float_pow c (Ui.fuzz_slider_value w) img)
    as [[box temp]|e]; [|slot_failed].
  destruct (box_empty box); [slot_failed|].
  destruct (fold_left (crop_step quantize c box) temp (Ok ([], [])))
    as [[pf pd]|e]; [|slot_failed].
  destruct pf as [|first rest]; [slot_failed|].
  destruct (Ui.save_completes env).
  - cbn. refine (conj _ (conj _ (conj _ (conj _ (conj _ _)))));
      try reflexivity; try assumption.
    + intros p Hp. apply write_file_other, Hp.
    + right. refine (conj _ (conj _ (conj _ (conj _ (conj _ (conj _ _))))));
        try reflexivity.
      eexists. reflexivity.
  - cbn. refine (conj _ (conj _ (conj _ (conj _ (conj _ _)))));
      try reflexivity; try assumption.
    + intros p Hp. destruct (Ui.save_leaves_file env); [|reflexivity].
      apply write_file_other, Hp.
    + left. refine (conj _ (conj _ (conj _ (conj _ (conj _ _)))));
        try reflexivity; [discriminate|right; reflexivity].
Qed.

(** The four ways [save_gif] ends: nothing to do or dialog cancelled; the
    copy fails; the copy is made but the temporary file cannot be removed;
    the copy is made and the temporary file removed. *)
Lemma save_gif_cases (env : Ui.save_env) (w : Ui.widget)
    (fs : Ui.filesystem) :
  Ui.save_gif env w fs = (w, fs)
  \/ (exists processed,
        Ui.processed_gif_path w = Some processed
        /\ Ui.copy_file fs processed (Ui.save_path env)
                        (Ui.copy_succeeds env) = None
        /\ Ui.save_gif env w fs
           = (Ui.set_status Ui.StatusSaveError (Ui.set_movie None w), fs))
  \/ (exists processed f,
        Ui.processed_gif_path w = Some processed
        /\ fs processed = Some f
        /\ processed <> Ui.save_path env
        /\ Ui.remove_succeeds env = false
        /\ Ui.save_gif env w fs
           = (Ui.set_status Ui.StatusDeleteFailed
                (Ui.set_status (Ui.StatusSavedAs (Ui.save_path env))
                   (Ui.set_movie None w)),
              Ui.write_file fs (Ui.save_path env) f))
  \/ (exists processed f,
        Ui.processed_gif_path w = Some processed
        /\ fs processed = Some f
        /\ processed <> Ui.save_path env
        /\ Ui.remove_succeeds env = true
        /\ Ui.save_gif env w fs
           = (Ui.set_fuzz_hidden true
                (Ui.set_buttons false (Ui.process_button_hidden w) true
                   (Ui.set_processed_gif_path None
                      (Ui.set_status (Ui.StatusSavedAs (Ui.save_path env))
                         (Ui.set_movie None w)))),
              Ui.remove_file (Ui.write_file fs (Ui.save_path env) f)
                             processed)).
Proof.
  unfold Ui.save_gif.
  destruct (Ui.processed_gif_path w) as [processed|] eqn:Ep;
    [|left; reflexivity].
  destruct (Ui.nonempty processed); cbn [negb]; [|left; reflexivity].
  destruct (Ui.nonempty (Ui.save_path env)); cbn [negb];
    [|left; reflexivity].
  destruct (Ui.copy_file fs processed (Ui.save_path env)
                         (Ui.copy_succeeds env)) as [fs1|] eqn:Ecopy.
  - apply copy_file_some in Ecopy as (f & Hf & Hne & _ & ->).
    destruct (Ui.remove_succeeds env) eqn:Er.
    + right. right. right. exists processed, f. cbn. auto.
    + right. right. left. exists processed, f. cbn. auto.
  - right. left. exists processed. auto.
Qed.

(** ** Saving *)

(** X10: [save_gif] never loses the processed animation: afterwards it is
    either still recorded and on disk at the temporary path, with the Save
    button as before, or it is at the chosen destination, the temporary file
    is gone, and Open has replaced Save. *)
Theorem save_gif_keeps_animation (env : Ui.save_env) (w : Ui.widget)
    (fs : Ui.filesystem) (p : Ui.path) (f : Ui.file) :
  Ui.processed_gif_path w = Some p ->
  fs p = Some f ->
  (Ui.processed_gif_path (fst (Ui.save_gif env w fs)) = Some p
   /\ snd (Ui.save_gif env w fs) p = Some f
   /\ Ui.save_button_hidden (fst (Ui.save_gif env w fs))
      = Ui.save_button_hidden w)
  \/ (Ui.processed_gif_path (fst (Ui.save_gif env w fs)) = None
      /\ snd (Ui.save_gif env w fs) (Ui.save_path env) = Some f
      /\ snd (Ui.save_gif env w fs) p = None
      /\ Ui.save_button_hidden (fst (Ui.save_gif env w fs)) = true
      /\ Ui.open_button_hidden (fst (Ui.save_gif env w fs)) = false).
Proof.
  intros Hp Hf.
  destruct (save_gif_cases env w fs)
    as [E|[(q & Hq & _ & E)|[(q & g & Hq & Hg & Hne & _ & E)
                            |(q & g & Hq & Hg & Hne & _ & E)]]];
    rewrite E; clear E; cbn [fst snd].
  - left. auto.
  - left. cbn. auto.
  - left. assert (q = p) as -> by congruence. cbn.
    rewrite write_file_other by exact Hne. auto.
  - right. assert (q = p) as -> by congruence.
    assert (g = f) as -> by congruence. cbn.
    rewrite remove_file_same, remove_file_other by congruence.
    rewrite write_file_same. auto.
Qed.

Lemma save_gif_keeps_animation_witness :
  exists f,
    snd example_processed example_temp = Some f
    /\ ((Ui.processed_gif_path
           (fst (Ui.save_gif example_save_env (fst example_processed)
                             (snd example_processed))) = Some example_temp
         /\ snd (Ui.save_gif example_save_env (fst example_processed)
                             (snd example_processed)) example_temp = Some f
         /\ Ui.save_button_hidden
              (fst (Ui.save_gif example_save_env (fst example_processed)
                                (snd example_processed)))
            = Ui.save_button_hidden (fst example_processed))
        \/ (Ui.processed_gif_path
              (fst (Ui.save_gif example_save_env (fst example_processed)
                                (snd example_processed))) = None
            /\ snd (Ui.save_gif example_save_env (fst example_processed)
                                (snd example_processed))
                   (Ui.save_path example_save_env) = Some f
            /\ snd (Ui.save_gif example_save_env (fst example_processed)
                                (snd example_processed)) example_temp = None
            /\ Ui.save_button_hidden
                 (fst (Ui.save_gif example_save_env (fst example_processed)
                                   (snd example_processed))) = true
            /\ Ui.open_button_hidden
                 (fst (Ui.save_gif example_save_env (fst example_processed)
                                   (snd example_processed))) = false)).
Proof.
  eexists. split.
  - vm_compute. reflexivity.
  - apply (save_gif_keeps_animation example_save_env (fst example_processed)
             (snd example_processed) example_temp).
    + vm_compute. reflexivity.
    + vm_compute. reflexivity.
Defined.

(** ** From the pure run to the slot *)

(** When the pure run reaches the [save] call and the encoder completes,
    the slot leaves that call's animation at the temporary path, records the
    path and shows Save. *)
Lemma process_gif_slot_saved (float_pow : float -> float -> float)
    (quantize : rgba_image -> indexed_image) (temp_output : Ui.path)
    (env : Ui.process_env) (w : Ui.widget) (fs : Ui.filesystem)
    (c : color) (img : gif_image) (call : save_call) :
  Ui.truthy (Ui.gif_path w) = true ->
  Ui.selected_color w = Some c ->
  Ui.decoded env = Some img ->
  Ui.save_completes env = true ->
  process_gif float_pow quantize (Some img) (Some c) (Ui.fuzz_slider_value w)
  = Saved call ->
  snd (Ui.process_gif float_pow quantize temp_output env w fs)
  = Ui.write_file fs temp_output (Ui.Encoded call)
  /\ Ui.processed_gif_path
       (fst (Ui.process_gif float_pow quantize temp_output env w fs))
     = Some temp_output
  /\ Ui.status_label
       (fst (Ui.process_gif float_pow quantize temp_output env w fs))
     = Ui.StatusRemoved
  /\ Ui.save_button_hidden
       (fst (Ui.process_gif float_pow quantize temp_output env w fs))
     = false
  /\ Ui.movie (fst (Ui.process_gif float_pow quantize temp_output env w fs))
     = Some temp_output.
Proof.
  intros Ht Hc Hd Hs. unfold process_gif, Ui.process_gif, crop_and_save.
  rewrite Ht, Hc, Hd, Hs.
  destruct (transparency_pass float_pow c (Ui.fuzz_slider_value w) img)
    as [[box temp]|e]; [|discriminate].
  destruct (box_empty box); [discriminate|].
  destruct (fold_left (crop_step quantize c box) temp (Ok ([], [])))
    as [[pf pd]|e]; cbn [bind]; [|discriminate].
  destruct pf as [|first rest]; [discriminate|].
  intros H. injection H as <-. cbn. auto.
Qed.

(** X11: a successful Remove Background followed by a successful Save
    delivers the animation: the file at the chosen destination holds exactly
    the [save] call of the run, the temporary file is gone, no other file has
    changed, and the widget is back to Open with no processed path. *)
Theorem process_then_save_delivers (float_pow : float -> float -> float)
    (quantize : rgba_image -> indexed_image) (temp_output : Ui.path)
    (penv : Ui.process_env) (senv : Ui.save_env)
    (w : Ui.widget) (fs : Ui.filesystem)
    (c : color) (img : gif_image) (call : save_call) :
  Ui.truthy (Ui.gif_path w) = true ->
  Ui.selected_color w = Some c ->
  Ui.decoded penv = Some img ->
  Ui.save_completes penv = true ->
  process_gif float_pow quantize (Some img) (Some c) (Ui.fuzz_slider_value w)
  = Saved call ->
  Ui.nonempty temp_output = true ->
  Ui.nonempty (Ui.save_path senv) = true ->
  Ui.save_path senv <> temp_output ->
  Ui.copy_succeeds senv = true ->
  Ui.remove_succeeds senv = true ->
  exists w1 fs1 w2 fs2,
    Ui.process_gif float_pow quantize temp_output penv w fs = (w1, fs1)
    /\ Ui.save_gif senv w1 fs1 = (w2, fs2)
    /\ fs2 (Ui.save_path senv) = Some (Ui.Encoded call)
    /\ fs2 temp_output = None
    /\ (forall p, p <> temp_output -> p <> Ui.save_path senv ->
                  fs2 p = fs p)
    /\ Ui.processed_gif_path w2 = None
    /\ Ui.movie w2 = None
    /\ Ui.status_label w2 = Ui.StatusSavedAs (Ui.save_path senv)
    /\ Ui.open_button_hidden w2 = false
    /\ Ui.save_button_hidden w2 = true.
Proof.
  intros Ht Hc Hd Hs Hrun Hnt Hnd Hne Hcopy Hrem.
  destruct (process_gif_slot_saved float_pow quantize temp_output penv w fs
              c img call Ht Hc Hd Hs Hrun)
    as (Efs & Epath & _ & _ & _).
  destruct (Ui.process_gif float_pow quantize temp_output penv w fs)
    as [w1 fs1]. cbn [fst snd] in Efs, Epath.
  exists w1, fs1. eexists. eexists. split; [reflexivity|].
  assert (Esave :
    Ui.save_gif senv w1 fs1
    = (Ui.set_fuzz_hidden true
         (Ui.set_buttons false (Ui.process_button_hidden w1) true
            (Ui.set_processed_gif_path None
               (Ui.set_status (Ui.StatusSavedAs (Ui.save_path senv))
                  (Ui.set_movie None w1)))),
       Ui.remove_file
         (Ui.write_file fs1 (Ui.save_path senv) (Ui.Encoded call))
         temp_output)).
  { unfold Ui.save_gif, Ui.copy_file.
    rewrite Epath, Hnt, Hnd, Hcopy, Hrem. cbn [negb andb].
    rewrite Efs, write_file_same.
    destruct (String.eqb_spec temp_output (Ui.save_path senv));
      [congruence|]. reflexivity. }
  split; [exact Esave|]. cbn.
  refine (conj _ (conj _ (conj _ (conj _ (conj _ (conj _ (conj _ _)))))));
    try reflexivity.
  - rewrite remove_file_other by exact Hne. apply write_file_same.
  - apply remove_file_same.
  - intros p Hp Hq. rewrite remove_file_other by exact Hp.
    rewrite write_file_other by exact Hq. rewrite Efs.
    apply write_file_other, Hp.
Qed.

Lemma process_then_save_delivers_witness :
  exists call,
    process_gif sqrt_pow flat_quantize (Some block_4x4)
                (Some (255, 255, 255)) (Ui.fuzz_slider_value example_widget)
    = Saved call
    /\ exists w1 fs1 w2 fs2,
         Ui.process_gif sqrt_pow flat_quantize example_temp
                        example_process_env example_widget empty_disk
         = (w1, fs1)
         /\ Ui.save_gif example_save_env w1 fs1 = (w2, fs2)
         /\ fs2 (Ui.save_path example_save_env) = Some (Ui.Encoded call)
         /\ fs2 example_temp = None
         /\ (forall p, p <> example_temp ->
                       p <> Ui.save_path example_save_env ->
                       fs2 p = empty_disk p)
         /\ Ui.processed_gif_path w2 = None
         /\ Ui.movie w2 = None
         /\ Ui.status_label w2
            = Ui.StatusSavedAs (Ui.save_path example_save_env)
         /\ Ui.open_button_hidden w2 = false
         /\ Ui.save_button_hidden w2 = true.
Proof.
  eexists. split.
  - vm_compute. reflexivity.
  - apply (process_then_save_delivers sqrt_pow flat_quantize example_temp
             example_process_env example_save_env example_widget empty_disk
             (255, 255, 255) block_4x4).
    + vm_compute. reflexivity.
    + vm_compute. reflexivity.
    + reflexivity.
    + reflexivity.
    + vm_compute. reflexivity.
    + vm_compute. reflexivity.
    + vm_compute. reflexivity.
    + intros H. vm_compute in H. discriminate.
    + reflexivity.
    + reflexivity.
Defined.

(** X12: with a file opened and decoded, the text the slot leaves on the
    status label is the one that belongs to the outcome of the pure run:
    select-first without a colour, all-transparent for no content, the error
    text for an exception or a failed [save], and "Background removed." only
    for a completed [save]. *)
Theorem process_gif_slot_status (float_pow : float -> float -> float)
    (quantize : rgba_image -> indexed_image) (temp_output : Ui.path)
    (env : Ui.process_env) (w : Ui.widget) (fs : Ui.filesystem)
    (img : gif_image) :
  Ui.truthy (Ui.gif_path w) = true ->
  Ui.decoded env = Some img ->
  Ui.status_label
    (fst (Ui.process_gif float_pow quantize temp_output env w fs))
  = match process_gif float_pow quantize (Some img) (Ui.selected_color w)
                      (Ui.fuzz_slider_value w) with
    | NoSelection => Ui.StatusSelectFirst
    | NoContent => Ui.StatusAllTransparent
    | ProcessingError _ => Ui.StatusProcessError
    | Saved _ =>
        if Ui.save_completes env then Ui.StatusRemoved
        else Ui.StatusProcessError
    end.
Proof.
  intros Ht Hd. unfold process_gif, Ui.process_gif, crop_and_save.
  rewrite Ht, Hd.
  destruct (Ui.selected_color w) as [c|]; [|reflexivity].
  destruct (transparency_pass float_pow c (Ui.fuzz_slider_value w) img)
    as [[box temp]|e]; [|reflexivity].
  destruct (box_empty box); [reflexivity|].
  destruct (fold_left (crop_step quantize c box) temp (Ok ([], [])))
    as [[pf pd]|e]; cbn [bind]; [|reflexivity].
  destruct pf as [|first rest]; [reflexivity|].
  destruct (Ui.save_completes env); reflexivity.
Qed.

Lemma process_gif_slot_status_witness :
  Ui.status_label
    (fst (Ui.process_gif sqrt_pow flat_quantize example_temp
                         example_process_env example_widget empty_disk))
  = match process_gif sqrt_pow flat_quantize (Some block_4x4)
                      (Ui.selected_color example_widget)
                      (Ui.fuzz_slider_value example_widget) with
    | NoSelection => Ui.StatusSelectFirst
    | NoContent => Ui.StatusAllTransparent
    | ProcessingError _ => Ui.StatusProcessError
    | Saved _ =>
        if Ui.save_completes example_process_env then Ui.StatusRemoved
        else Ui.StatusProcessError
    end.
Proof.
  apply (process_gif_slot_status sqrt_pow flat_quantize example_temp
           example_process_env example_widget empty_disk block_4x4).
  - vm_compute. reflexivity.
  - reflexivity.
Defined.

(** ** Opening, closing and the disk *)

(** X13: opening a file forgets the selected colour: a click on Remove
    Background right after [open_gif], whatever the dialog returned and
    whatever was selected before, only puts "Please select a color first." on
    the status label and leaves the disk alone. *)
Theorem open_gif_then_process_gif (float_pow : float -> float -> float)
    (quantize : rgba_image -> indexed_image) (temp_output chosen : Ui.path)
    (env : Ui.process_env) (w : Ui.widget) (fs : Ui.filesystem) :
  Ui.process_gif float_pow quantize temp_output env (Ui.open_gif chosen w) fs
  = (Ui.set_status Ui.StatusSelectFirst (Ui.open_gif chosen w), fs).
Proof.
  unfold Ui.process_gif, Ui.open_gif.
  destruct (Ui.nonempty chosen) eqn:E; cbn.
  - rewrite E. reflexivity.
  - rewrite E. reflexivity.
Qed.

(** X14: [closeEvent] stops the movie and touches nothing else of the
    widget; on disk it can only remove the recorded temporary file, which is
    gone afterwards when the removal is permitted, and it changes nothing when
    the removal raises [PermissionError]. *)
Theorem closeEvent_cleans_up (remove_succeeds : bool) (w : Ui.widget)
    (fs : Ui.filesystem) :
  fst (Ui.closeEvent remove_succeeds w fs) = Ui.set_movie None w
  /\ (forall p, Ui.processed_gif_path w <> Some p ->
                snd (Ui.closeEvent remove_succeeds w fs) p = fs p)
  /\ (forall p, Ui.processed_gif_path w = Some p ->
                Ui.nonempty p = true -> remove_succeeds = true ->
                snd (Ui.closeEvent remove_succeeds w fs) p = None)
  /\ (remove_succeeds = false ->
      snd (Ui.closeEvent remove_succeeds w fs) = fs).
Proof.
  unfold Ui.closeEvent. cbn [Ui.processed_gif_path Ui.set_movie].
  destruct (Ui.processed_gif_path w) as [q|] eqn:Eq.
  - destruct (Ui.nonempty q && Ui.exists_file fs q) eqn:En; cbn [fst snd].
    + refine (conj eq_refl (conj _ (conj _ _))).
      * intros p Hp. destruct remove_succeeds; [|reflexivity].
        apply remove_file_other. congruence.
      * intros p Hp _ ->. injection Hp as ->. apply remove_file_same.
      * intros ->. reflexivity.
    + refine (conj eq_refl (conj _ (conj _ _))).
      * reflexivity.
      * intros p Hp Hn _. injection Hp as ->. rewrite Hn in En.
        cbn [andb] in En. unfold Ui.exists_file in En.
        destruct (fs p); [discriminate|reflexivity].
      * reflexivity.
  - cbn [fst snd]. refine (conj eq_refl (conj _ (conj _ _))).
    + reflexivity.
    + intros p Hp. discriminate.
    + reflexivity.
Qed.

(** X15: the slots write to the disk only where they are meant to:
    [process_gif] changes no file but the temporary one, and [save_gif]
    changes no file but the chosen destination and the recorded temporary
    file. *)
Theorem slots_disk_footprint (float_pow : float -> float -> float)
    (quantize : rgba_image -> indexed_image) (temp_output : Ui.path)
    (penv : Ui.process_env) (senv : Ui.save_env)
    (w : Ui.widget) (fs : Ui.filesystem) :
  (forall p, p <> temp_output ->
             snd (Ui.process_gif float_pow quantize temp_output penv w fs) p
             = fs p)
  /\ (forall p, Ui.processed_gif_path w <> Some p ->
                p <> Ui.save_path senv ->
                snd (Ui.save_gif senv w fs) p = fs p).
Proof.
  split.
  - pose proof (process_gif_slot_cases float_pow quantize temp_output
                  penv w fs) as H. cbv zeta in H.
    destruct H as (_ & _ & _ & _ & Hfs & _). exact Hfs.
  - intros p Hp Hd.
    destruct (save_gif_cases senv w fs)
      as [E|[(q & Hq & _ & E)|[(q & g & Hq & Hg & Hne & _ & E)
                              |(q & g & Hq & Hg & Hne & _ & E)]]];
      rewrite E; clear E; cbn [snd]; try reflexivity.
    + apply write_file_other, Hd.
    + rewrite remove_file_other by congruence.
      apply write_file_other, Hd.
Qed.
